(** * SearchWorkerPool: worker pool, batch dispatcher and retry loop

  A shallow embedding of
    - [search_agent/coordination/_worker_wrapper.py]  (WorkerAgentWrapper)
    - [search_agent/mcp_servers/search_worker_pool.py]
      (initialize_pool, execute_subtasks, execute_on_agent,
       _extract_output_from_dict)
  together with the properties of the pool's admission, retry, aggregation
  and release protocol.

  Python objects are modelled by a small universe of values, the module
  globals by a record that is threaded through a state-and-exception monad,
  and the external collaborators (the executor behind a worker, [str],
  [round], [time.perf_counter], [traceback.format_exc]) by the fields of two
  interfaces. *)

From Stdlib Require Import ZArith QArith.
From stdpp Require Import base option list strings pretty sorting.

Set Warnings "-register-all".
Local Open Scope string_scope.
Local Open Scope Z_scope.

(** ** Python values *)

Module Py.

(** Where the class of an exception stands in the hierarchy, as far as the
    pool and [asyncio] tell classes apart: below [Exception], below
    [asyncio.CancelledError], or below [BaseException] only.  The exceptions
    modelled are those that [asyncio] keeps in the task that raised them:
    all but [KeyboardInterrupt] and [SystemExit], which stop the event loop
    itself. *)
Inductive ExcBase : Type :=
| OfException
| OfCancelledError
| OfBaseException.

(** An exception instance: [type(exc).__name__], [str(exc)] and the base of
    its class. *)
Record PyExc : Type := mkExc {
  exc_type : string;
  exc_msg : string;
  exc_base : ExcBase
}.

(** [isinstance(exc, Exception)] *)
Definition isinstance_Exception (exc : PyExc) : bool :=
  match exc_base exc with
  | OfException => true
  | OfCancelledError | OfBaseException => false
  end.

(** [isinstance(exc, asyncio.CancelledError)] *)
Definition isinstance_CancelledError (exc : PyExc) : bool :=
  match exc_base exc with
  | OfCancelledError => true
  | OfException | OfBaseException => false
  end.

Definition ValueError (msg : string) : PyExc := mkExc "ValueError" msg OfException.
Definition RuntimeError (msg : string) : PyExc := mkExc "RuntimeError" msg OfException.
Definition TypeError (msg : string) : PyExc := mkExc "TypeError" msg OfException.
Definition KeyError (msg : string) : PyExc := mkExc "KeyError" msg OfException.
Definition IndexError (msg : string) : PyExc := mkExc "IndexError" msg OfException.
Definition AttributeError (msg : string) : PyExc :=
  mkExc "AttributeError" msg OfException.
(** [asyncio.CancelledError()] *)
Definition CancelledError : PyExc := mkExc "CancelledError" "" OfCancelledError.

(** The values that travel through the pool: executor responses, outcome
    records and pieces of configuration.  A dict is an association list in
    insertion order; [VObj] is an instance of a user class with its
    attributes (a LangChain message, for instance); [VExc] is an exception
    object held as a value, as [asyncio.gather] returns it. *)
Inductive PyVal : Type :=
| VNone
| VBool (b : bool)
| VInt (z : Z)
| VFloat (q : Q)
| VStr (s : string)
| VList (l : list PyVal)
| VDict (d : list (string * PyVal))
| VObj (cls : string) (attrs : list (string * PyVal))
| VExc (exc : PyExc).

Definition PyDict : Type := list (string * PyVal).

(** The result of evaluating something that may raise. *)
Inductive Result (A : Type) : Type :=
| Ok (a : A)
| Raise (e : PyExc).
Arguments Ok {A} a.
Arguments Raise {A} e.

Definition is_ok {A} (r : Result A) : bool :=
  match r with Ok _ => true | Raise _ => false end.

(** [d.get(k)] / [d[k]] on a dict: the first binding of [k]. *)
Fixpoint dict_get (k : string) (d : PyDict) : option PyVal :=
  match d with
  | [] => None
  | (k', v) :: d' => if String.eqb k k' then Some v else dict_get k d'
  end.

(** [k in d]. *)
Definition dict_has (k : string) (d : PyDict) : bool :=
  match dict_get k d with Some _ => true | None => false end.

(** [d.get(k, default)]. *)
Definition dict_get_default (k : string) (default : PyVal) (d : PyDict) : PyVal :=
  match dict_get k d with Some v => v | None => default end.

(** Truth value of [v] as tested by [if v:]. *)
Definition truthy (v : PyVal) : bool :=
  match v with
  | VNone => false
  | VBool b => b
  | VInt z => negb (z =? 0)
  | VFloat q => negb (Qeq_bool q 0)
  | VStr s => negb (String.eqb s "")
  | VList l => match l with [] => false | _ => true end
  | VDict d => match d with [] => false | _ => true end
  | VObj _ _ => true
  | VExc _ => true
  end.

Fixpoint last_char (s : string) : option Ascii.ascii :=
  match s with
  | EmptyString => None
  | String c EmptyString => Some c
  | String _ s' => last_char s'
  end.

(** [v[-1]].  Lists and strings are indexed from the end; the keys of a
    modelled dict are strings, so [-1] is never one of them; the other values
    are not subscriptable. *)
Definition getitem_last (v : PyVal) : Result PyVal :=
  match v with
  | VList l =>
      match last l with
      | Some x => Ok x
      | None => Raise (IndexError "list index out of range")
      end
  | VStr s =>
      match last_char s with
      | Some c => Ok (VStr (String c EmptyString))
      | None => Raise (IndexError "string index out of range")
      end
  | VDict _ => Raise (KeyError "-1")
  | _ => Raise (TypeError "object is not subscriptable")
  end.

(** [hasattr(v, name)] for a name that no built-in type defines, and
    [getattr(v, name)]. *)
Definition getattr (name : string) (v : PyVal) : option PyVal :=
  match v with
  | VObj _ attrs => dict_get name attrs
  | _ => None
  end.

(** [isinstance(v, dict) and name in v], then [v[name]]. *)
Definition dict_item (name : string) (v : PyVal) : option PyVal :=
  match v with
  | VDict d => dict_get name d
  | _ => None
  end.

(** The builtins and clocks the pool calls but does not define. *)
Class Builtins : Type := {
  (** [str(v)] *)
  py_str : PyVal -> string;
  (** [round(x, 2)] *)
  py_round2 : Q -> Q;
  (** [traceback.format_exc()] while handling the given exception *)
  format_exc : PyExc -> string;
  (** [time.perf_counter() - start_time] as read by the task with the given
      index during the given attempt (counted from 0) *)
  elapsed_time : nat -> nat -> Q
}.

End Py.
Export Py.

(** ** [_extract_output_from_dict] *)

Section Extract.
Context `{Builtins}.

(** search_worker_pool.py, [_extract_output_from_dict]. *)
Definition _extract_output_from_dict (result : PyDict) : Result PyVal :=
  if dict_has "output" result then
    Ok (VStr (py_str (dict_get_default "output" VNone result)))
  else
    let messages := dict_get_default "messages" (VList []) result in
    let fallback := Ok (VStr (py_str (VDict result))) in
    if truthy messages then
      match getitem_last messages with
      | Raise e => Raise e
      | Ok last =>
          match getattr "content" last with
          | Some c => Ok c
          | None =>
              match dict_item "content" last with
              | Some c => Ok c
              | None => fallback
              end
          end
      end
    else fallback.

End Extract.

(** ** The executor behind a worker

    [SearchExecutor] is an external collaborator: it talks to a language
    model and to an MCP server.  The pool only constructs it, starts it and
    calls [run] on it, so the model keeps it abstract: a state type with these
    three operations.  [run] returns the executor's next state together with
    the response dict, or the exception it raised to the coroutine that
    awaits it.  That exception may be of any class: an [Exception], an
    [asyncio.CancelledError], or another [BaseException]. *)
Class Executor (E : Type) : Type := {
  (** the [model] argument of [SearchAgent(...)] *)
  Model : Type;
  (** the keyword arguments unpacked from [config.get("agent_config", {})] *)
  AgentKwargs : Type;
  (** the [ChatOpenAI] client built from the process environment *)
  default_model : Model;
  (** the empty keyword dict *)
  no_kwargs : AgentKwargs;
  (** the constructor [SearchAgent], given name, model and keyword arguments *)
  SearchAgent : string -> Model -> AgentKwargs -> E;
  (** [await agent.start()] *)
  start : E -> Result E;
  (** [await agent.run(query)] *)
  run : E -> string -> E * Result PyDict;
  (** [MAX_POOL_SIZE = get_pool_size("search")], read once at import *)
  MAX_POOL_SIZE : Z
}.

(** ** State of the module *)

(** _worker_wrapper.py, the fields of [WorkerAgentWrapper]. *)
Record WorkerAgentWrapper (E : Type) : Type := mkWorker {
  agent : E;
  agent_id : string;
  created_at : Z;
  last_used : Z;
  is_busy : bool;
  task_count : Z
}.
Arguments mkWorker {E}.
Arguments agent {E}.
Arguments agent_id {E}.
Arguments created_at {E}.
Arguments last_used {E}.
Arguments is_busy {E}.
Arguments task_count {E}.

(** What the outside world can observe of a run: executors constructed and
    started, calls of an executor's [run], and sleeps. *)
Inductive Event : Type :=
| EvCreate (name : string)
| EvStart (name : string)
| EvRun (worker : string) (subtask : string)
| EvSleep (seconds : Z).

(** The [config] dict of [initialize_pool]: its two optional keys. *)
Record PoolConfig (K : Type) : Type := mkConfig {
  max_pool_size : option Z;
  agent_config : option K
}.
Arguments mkConfig {K}.
Arguments max_pool_size {K}.
Arguments agent_config {K}.

(** The module globals of search_worker_pool.py ([worker_pool],
    [pool_config], [_pool_initialized]) and the environment of the running
    coroutine: the wall clock read by [datetime.now()], whether the
    coroutine's cancellation has been requested, and the events so far. *)
Record World (E : Type) `{Executor E} : Type := mkWorld {
  worker_pool : list (WorkerAgentWrapper E);
  pool_config : PoolConfig AgentKwargs;
  _pool_initialized : bool;
  wall_clock : Z;
  cancel_requested : bool;
  trace : list Event
}.
Arguments mkWorld {E _}.
Arguments worker_pool {E _}.
Arguments pool_config {E _}.
Arguments _pool_initialized {E _}.
Arguments wall_clock {E _}.
Arguments cancel_requested {E _}.
Arguments trace {E _}.

(** ** A monad for state and exceptions

    A Python exception does not roll the heap back, so a computation returns
    its final world on both outcomes. *)
Module PyM.
Section Defs.
Context {E : Type} `{Executor E}.

Definition M (A : Type) : Type := World E -> Result A * World E.

Definition ret {A} (a : A) : M A := fun w => (Ok a, w).

Definition bind {A B} (m : M A) (k : A -> M B) : M B :=
  fun w =>
    match m w with
    | (Ok a, w') => k a w'
    | (Raise e, w') => (Raise e, w')
    end.

Definition raise {A} (e : PyExc) : M A := fun w => (Raise e, w).

Definition gets {A} (f : World E -> A) : M A := fun w => (Ok (f w), w).

Definition modify (f : World E -> World E) : M unit := fun w => (Ok tt, f w).

(** [try: body  except Exception as exc: handler(exc)].  An exception that
    is not an instance of [Exception] passes through. *)
Definition try_except {A} (body : M A) (handler : PyExc -> M A) : M A :=
  fun w =>
    match body w with
    | (Ok a, w') => (Ok a, w')
    | (Raise e, w') =>
        if isinstance_Exception e then handler e w' else (Raise e, w')
    end.

(** [try: body  finally: cleanup] *)
Definition try_finally {A} (body : M A) (cleanup : M unit) : M A :=
  fun w =>
    match body w with
    | (r, w') =>
        match cleanup w' with
        | (Ok _, w'') => (r, w'')
        | (Raise e, w'') => (Raise e, w'')
        end
    end.

(** Evaluation of a pure expression that may raise. *)
Definition lift {A} (r : Result A) : M A := fun w => (r, w).

End Defs.
End PyM.
Import PyM.

Declare Scope pym_scope.
Delimit Scope pym_scope with pym.
Notation "x <- m ;; k" := (bind m (fun x => k))
  (at level 100, m at next level, right associativity) : pym_scope.
Notation "m ;;; k" := (bind m (fun _ => k))
  (at level 100, right associativity) : pym_scope.
Local Open Scope pym_scope.

(** ** Worker handles and the pool *)

Section Pool.
Context {E : Type} `{Executor E} `{Builtins}.

Definition nl : string := String (Ascii.ascii_of_nat 10) EmptyString.

(** Field updates of a worker, and of the world. *)
Definition set_agent (e : E) (wk : WorkerAgentWrapper E) : WorkerAgentWrapper E :=
  mkWorker e (agent_id wk) (created_at wk) (last_used wk) (is_busy wk) (task_count wk).

Definition set_is_busy (b : bool) (wk : WorkerAgentWrapper E) : WorkerAgentWrapper E :=
  mkWorker (agent wk) (agent_id wk) (created_at wk) (last_used wk) b (task_count wk).

Definition set_last_used (t : Z) (wk : WorkerAgentWrapper E) : WorkerAgentWrapper E :=
  mkWorker (agent wk) (agent_id wk) (created_at wk) t (is_busy wk) (task_count wk).

Definition set_task_count (n : Z) (wk : WorkerAgentWrapper E) : WorkerAgentWrapper E :=
  mkWorker (agent wk) (agent_id wk) (created_at wk) (last_used wk) (is_busy wk) n.

Definition with_pool (f : list (WorkerAgentWrapper E) -> list (WorkerAgentWrapper E))
    (w : World E) : World E :=
  mkWorld (f (worker_pool w)) (pool_config w) (_pool_initialized w)
          (wall_clock w) (cancel_requested w) (trace w).

Definition with_config (c : PoolConfig AgentKwargs) (w : World E) : World E :=
  mkWorld (worker_pool w) c (_pool_initialized w)
          (wall_clock w) (cancel_requested w) (trace w).

Definition with_initialized (b : bool) (w : World E) : World E :=
  mkWorld (worker_pool w) (pool_config w) b
          (wall_clock w) (cancel_requested w) (trace w).

Definition emit (ev : Event) : M unit :=
  modify (fun w => mkWorld (worker_pool w) (pool_config w) (_pool_initialized w)
                           (wall_clock w) (cancel_requested w) (trace w ++ [ev])).

(** [datetime.now()]: a reading of the wall clock, which is taken to have
    advanced by the next reading. *)
Definition datetime_now : M Z :=
  fun w => (Ok (wall_clock w),
            mkWorld (worker_pool w) (pool_config w) (_pool_initialized w)
                    (wall_clock w + 1) (cancel_requested w) (trace w)).

(** [await asyncio.sleep(seconds)] *)
Definition sleep (seconds : Z) : M unit := emit (EvSleep seconds).

(** A worker object is referred to by its position in [worker_pool]; the
    list only ever grows at its end, so positions are stable references.
    [on_worker self f] applies the field update [f] to the object. *)
Definition on_worker (self : nat)
    (f : WorkerAgentWrapper E -> WorkerAgentWrapper E) : M unit :=
  modify (with_pool (alter f self)).

Definition stale_reference : PyExc := RuntimeError "stale worker reference".

Definition get_worker (self : nat) : M (WorkerAgentWrapper E) :=
  fun w =>
    match worker_pool w !! self with
    | Some wk => (Ok wk, w)
    | None => (Raise stale_reference, w)
    end.

(** [await self.agent.run(subtask)] on the worker object [self]: one step of
    the executor it owns. *)
Definition agent_run (self : nat) (subtask : string) : M PyDict :=
  wk <- get_worker self ;;
  let '(e', r) := run (agent wk) subtask in
  emit (EvRun (agent_id wk) subtask) ;;;
  on_worker self (set_agent e') ;;;
  lift r.

(** _worker_wrapper.py, [WorkerAgentWrapper.__init__]. *)
Definition new_WorkerAgentWrapper (a : E) (id : string) : M (WorkerAgentWrapper E) :=
  created <- datetime_now ;;
  used <- datetime_now ;;
  ret (mkWorker a id created used false 0).

(** _worker_wrapper.py, [WorkerAgentWrapper.execute]. *)
Definition execute (self : nat) (subtask : string) : M PyDict :=
  on_worker self (set_is_busy true) ;;;
  on_worker self (fun wk => set_task_count (task_count wk + 1) wk) ;;;
  now <- datetime_now ;;
  on_worker self (set_last_used now) ;;;
  try_finally
    (result <- agent_run self subtask ;;
     ret result)
    (on_worker self (set_is_busy false)).

(** *** [initialize_pool] *)

(** [f"search_agent_{i}"] *)
Definition agent_name (i : nat) : string :=
  "search_agent_" +:+ py_str (VInt (Z.of_nat i)).

(** [range(n)] for a Python int [n]. *)
Definition range (n : Z) : list nat := seq 0 (Z.to_nat n).

(** [await asyncio.gather] of the given tasks: every task runs; the call
    raises the exception of a task that failed, if one did.  The tasks are
    taken to finish in list order, so that of several failures the call
    raises the first in the list. *)
Fixpoint gather {A} (tasks : list (M A)) : M (list A) :=
  match tasks with
  | [] => ret []
  | t :: ts =>
      fun w =>
        match t w with
        | (r, w1) =>
            match gather ts w1 with
            | (rs, w2) =>
                match r, rs with
                | Ok a, Ok l => (Ok (a :: l), w2)
                | Raise e, _ => (Raise e, w2)
                | Ok _, Raise e => (Raise e, w2)
                end
            end
        end
  end.

Definition start_agent (p : string * E) : M (string * E) :=
  emit (EvStart p.1) ;;;
  a <- lift (start p.2) ;;
  ret (p.1, a).

Definition create_agent (model : Model) (kwargs : AgentKwargs) (i : nat)
    : M (string * E) :=
  emit (EvCreate (agent_name i)) ;;;
  ret (agent_name i, SearchAgent (agent_name i) model kwargs).

(** [for x in xs: body(x)] *)
Fixpoint for_each {A} (xs : list A) (body : A -> M unit) : M unit :=
  match xs with
  | [] => ret tt
  | x :: xs' => body x ;;; for_each xs' body
  end.

(** [[f(x) for x in xs]] *)
Fixpoint comprehension {A B} (xs : list A) (f : A -> M B) : M (list B) :=
  match xs with
  | [] => ret []
  | x :: xs' => y <- f x ;; ys <- comprehension xs' f ;; ret (y :: ys)
  end.

Definition default_config : PoolConfig AgentKwargs :=
  mkConfig (Some MAX_POOL_SIZE) (Some no_kwargs).

(** search_worker_pool.py, [initialize_pool]. *)
Definition initialize_pool (config : option (PoolConfig AgentKwargs))
    (model : option Model) : M unit :=
  initialized <- gets _pool_initialized ;;
  if initialized then ret tt
  else
    let config := default default_config config in
    modify (with_config config) ;;;
    let max_pool_size := default MAX_POOL_SIZE (max_pool_size config) in
    let model := default default_model model in
    agents <- comprehension (range max_pool_size)
                (create_agent model (default no_kwargs (agent_config config))) ;;
    agents <- gather (start_agent <$> agents) ;;
    for_each agents (fun p =>
      wrapper <- new_WorkerAgentWrapper p.2 p.1 ;;
      modify (with_pool (fun pool => (pool ++ [wrapper])%list))) ;;;
    modify (with_initialized true).

(** *** [execute_subtasks] *)

Definition max_retrys : nat := 5.

(** The dict returned by a task that succeeded. *)
Definition success_record (idx : nat) (subtask : string) (final_text : PyVal)
    (id : string) (elapsed : Q) : PyDict :=
  [ ("subtask_index", VInt (Z.of_nat idx));
    ("subtask", VStr subtask);
    ("result", final_text);
    ("agent_id", VStr id);
    ("time_taken_seconds", VFloat (py_round2 elapsed)) ].

(** The f-string [error_message] of a task that ran out of attempts. *)
Definition error_message (id : string) (elapsed : Q) (idx : nat)
    (subtask : string) (exc : PyExc) : string :=
  "Agent " +:+ id +:+ " failed after " +:+ py_str (VInt (Z.of_nat max_retrys))
    +:+ " attempts (took " +:+ py_str (VFloat (py_round2 elapsed)) +:+ "s)" +:+ nl
    +:+ "Subtask [" +:+ py_str (VInt (Z.of_nat idx)) +:+ "]: " +:+ subtask +:+ nl
    +:+ "Error type: " +:+ exc_type exc +:+ nl
    +:+ "Error message: " +:+ exc_msg exc +:+ nl
    +:+ "Full traceback:" +:+ nl +:+ format_exc exc.

(** [agent.agent_id] of the worker object [self]. *)
Definition worker_id (self : nat) : M string :=
  gets (fun w => from_option agent_id "" (worker_pool w !! self)).

(** The body of [for attempt in range(max_retrys)] in [execute_on_agent],
    over the attempts that are left.  A loop that ends without returning
    makes the coroutine return [None]. *)
Fixpoint attempts_loop (self : nat) (subtask : string) (idx : nat)
    (attempts : list nat) : M PyVal :=
  match attempts with
  | [] => ret VNone
  | attempt :: rest =>
      try_except
        (response <- agent_run self subtask ;;
         final_text <- lift (_extract_output_from_dict response) ;;
         id <- worker_id self ;;
         ret (VDict (success_record idx subtask final_text id
                       (elapsed_time idx attempt))))
        (fun exc =>
           if (attempt <? max_retrys - 1)%nat then
             sleep 1 ;;;
             attempts_loop self subtask idx rest
           else
             id <- worker_id self ;;
             raise (RuntimeError
                      (error_message id (elapsed_time idx attempt) idx subtask exc)))
  end.

(** search_worker_pool.py, [execute_on_agent] (local to [execute_subtasks]). *)
Definition execute_on_agent (self : nat) (subtask : string) (idx : nat) : M PyVal :=
  attempts_loop self subtask idx (seq 0 max_retrys).

(** Every task of the list runs to its end, whatever the others do; the
    outcome of each is kept at its position. *)
Fixpoint run_all {A} (tasks : list (M A)) (w : World E)
    : list (Result A) * World E :=
  match tasks with
  | [] => ([], w)
  | t :: ts =>
      match t w with
      | (r, w1) =>
          match run_all ts w1 with
          | (rs, w2) => (r :: rs, w2)
          end
      end
  end.

(** What [asyncio.gather(..., return_exceptions=True)] lists for a task
    that has finished: the value it returned, or the exception it raised, as
    an object.  A task that ended with a [CancelledError] counts as
    cancelled, and is listed as a new [CancelledError('')]. *)
Definition gathered (r : Result PyVal) : PyVal :=
  match r with
  | Ok v => v
  | Raise e =>
      if isinstance_CancelledError e then VExc CancelledError else VExc e
  end.

(** [await asyncio.gather(..., return_exceptions=True)].  The tasks own
    distinct workers and share nothing else, so running them one after the
    other yields the outcomes of any interleaving.  The await is the point of
    the try block at which a cancellation of the calling coroutine is
    delivered. *)
Definition gather_return_exceptions (tasks : list (M PyVal)) : M (list PyVal) :=
  fun w =>
    if cancel_requested w then (Raise CancelledError, w)
    else
      match run_all tasks w with
      | (rs, w') => (Ok (gathered <$> rs), w')
      end.

(** [[w for w in worker_pool if not w.is_busy]], as references. *)
Fixpoint idle_from (i : nat) (pool : list (WorkerAgentWrapper E)) : list nat :=
  match pool with
  | [] => []
  | wk :: pool' =>
      if is_busy wk then idle_from (S i) pool'
      else i :: idle_from (S i) pool'
  end.

Definition idle_workers (pool : list (WorkerAgentWrapper E)) : list nat :=
  idle_from 0 pool.

(** [enumerate(zip(available, subtasks))] *)
Fixpoint enumerate_zip (i : nat) (available : list nat) (subtasks : list string)
    : list (nat * (nat * string)) :=
  match available, subtasks with
  | a :: available', st :: subtasks' =>
      (i, (a, st)) :: enumerate_zip (S i) available' subtasks'
  | _, _ => []
  end.

(** [isinstance(result, Exception)], with the exception when it holds. *)
Definition as_Exception (result : PyVal) : option PyExc :=
  match result with
  | VExc exc => if isinstance_Exception exc then Some exc else None
  | _ => None
  end.

(** The loop that sorts the gathered results into [successful] and
    [failed]: an instance of [Exception] gives a record [{"error":
    str(result)}] in [failed], and everything else is appended to
    [successful] as it is. *)
Fixpoint aggregate (results : list PyVal) : list PyVal * list PyDict :=
  match results with
  | [] => ([], [])
  | result :: rs =>
      match aggregate rs with
      | (successful, failed) =>
          match as_Exception result with
          | Some exc => (successful, [("error", VStr (exc_msg exc))] :: failed)
          | None => (result :: successful, failed)
          end
      end
  end.

(** The dict returned by [execute_subtasks]. *)
Record BatchResult : Type := mkBatch {
  results : list PyVal;
  failed : list PyDict;
  subtasks_count : Z;
  agents_used : Z;
  pool_size : Z
}.

Definition len {A} (l : list A) : Z := Z.of_nat (length l).

Definition no_subtask : PyExc := ValueError "Must provide at least 1 subtask".

Definition too_many (n max_pool_size : Z) : PyExc :=
  ValueError ("Too many subtasks (" +:+ py_str (VInt n) +:+ ") for pool size ("
              +:+ py_str (VInt max_pool_size) +:+ ")").

Definition not_enough (requested available : Z) : PyExc :=
  RuntimeError ("Not enough agents. Requested: " +:+ py_str (VInt requested)
                +:+ ", Available: " +:+ py_str (VInt available)).

(** search_worker_pool.py, [execute_subtasks]. *)
Definition execute_subtasks (subtasks : list string) : M BatchResult :=
  initialized <- gets _pool_initialized ;;
  (if negb initialized then initialize_pool None None else ret tt) ;;;
  if (match subtasks with [] => true | _ => false end) || (len subtasks <? 1)
  then raise no_subtask
  else
    config <- gets pool_config ;;
    let max_pool_size := default MAX_POOL_SIZE (max_pool_size config) in
    if len subtasks >? max_pool_size
    then raise (too_many (len subtasks) max_pool_size)
    else
      (* async with pool_lock *)
      pool <- gets worker_pool ;;
      let available := take (length subtasks) (idle_workers pool) in
      if len available <? len subtasks
      then raise (not_enough (len subtasks) (len available))
      else
        for_each available (fun agent => on_worker agent (set_is_busy true)) ;;;
        try_finally
          (let tasks :=
             (fun '(i, (a, st)) => execute_on_agent a st i)
               <$> enumerate_zip 0 available subtasks in
           results <- gather_return_exceptions tasks ;;
           let '(successful, failed) := aggregate results in
           ret (mkBatch successful failed (len subtasks) (len available)
                        max_pool_size))
          (* async with pool_lock *)
          (for_each available (fun agent => on_worker agent (set_is_busy false))).

End Pool.

(** ** Vocabulary of the properties *)

Section Vocabulary.
Context {E : Type} `{Executor E} `{Builtins}.

(** [pool_config.get("max_pool_size", MAX_POOL_SIZE)]: the capacity against
    which [execute_subtasks] validates a batch. *)
Definition capacity (w : World E) : Z :=
  default MAX_POOL_SIZE (max_pool_size (pool_config w)).

(** The lazy initialization at the head of [execute_subtasks]. *)
Definition ensure_initialized : M unit :=
  initialized <- gets _pool_initialized ;;
  if negb initialized then initialize_pool None None else ret tt.

Definition idle_count (pool : list (WorkerAgentWrapper E)) : nat :=
  length (List.filter (fun wk => negb (is_busy wk)) pool).

Definition busy_count (pool : list (WorkerAgentWrapper E)) : nat :=
  length (List.filter is_busy pool).

(** The busy flags of the pool, in pool order. *)
Definition busy_flags (w : World E) : list bool := is_busy <$> worker_pool w.

(** The workers that a batch of [n] tasks claims in world [w]. *)
Definition claimed (n : nat) (w : World E) : list nat :=
  take n (idle_workers (worker_pool w)).

(** [for agent in available: agent.is_busy = b], as a function on the pool. *)
Definition set_busy_all (b : bool) (available : list nat)
    (pool : list (WorkerAgentWrapper E)) : list (WorkerAgentWrapper E) :=
  foldl (fun p a => alter (set_is_busy b) a p) pool available.

(** The world in which the tasks of a batch start: the claimed workers are
    marked busy. *)
Definition after_claim (n : nat) (w : World E) : World E :=
  with_pool (set_busy_all true (claimed n w)) w.

(** The coroutines that [execute_subtasks] hands to [asyncio.gather]. *)
Definition batch_tasks (available : list nat) (subtasks : list string)
    : list (M PyVal) :=
  (fun '(i, (a, st)) => execute_on_agent a st i)
    <$> enumerate_zip 0 available subtasks.

(** What [asyncio.gather] lists for the tasks of an admitted batch, by task
    index. *)
Definition task_outcomes (subtasks : list string) (w : World E) : list PyVal :=
  gathered <$> (run_all (batch_tasks (claimed (length subtasks) w) subtasks)
                        (after_claim (length subtasks) w)).1.

(** A batch passes validation and allocation in world [w]. *)
Definition admitted (subtasks : list string) (w : World E) : Prop :=
  (1 <= length subtasks)%nat
  /\ len subtasks <= capacity w
  /\ (length subtasks <= idle_count (worker_pool w))%nat.

(** The executor [e] after [k] calls of [run] with the query [q]. *)
Fixpoint after_runs (k : nat) (e : E) (q : string) : E :=
  match k with
  | O => e
  | S k' => after_runs k' (run e q).1 q
  end.

(** One attempt: the executor's response, then the extraction of its text. *)
Definition attempt_on (e : E) (q : string) : Result PyVal :=
  match (run e q).2 with
  | Ok response => _extract_output_from_dict response
  | Raise exc => Raise exc
  end.

(** The outcome of attempt number [k] (from 0) of a task with query [q] that
    starts on the executor [e]. *)
Definition attempt_outcome (e : E) (q : string) (k : nat) : Result PyVal :=
  attempt_on (after_runs k e q) q.

(** The events of a retry loop that stops after [k] retries: a first
    attempt, then [k] times a sleep of one second and a further attempt. *)
Definition retry_events (id : string) (q : string) (k : nat) : list Event :=
  EvRun id q :: concat (replicate k [EvSleep 1; EvRun id q]).

(** An attempt failed in the way that the retry loop handles: it raised an
    instance of [Exception]. *)
Definition failed_attempt (r : Result PyVal) : bool :=
  match r with
  | Ok _ => false
  | Raise exc => isinstance_Exception exc
  end.

(** The retry loop stops at attempt [k]: the attempts before it failed, and
    attempt [k] returned, or raised something that is not an [Exception],
    or was the last one allowed. *)
Definition stops_at (e : E) (q : string) (k : nat) : Prop :=
  (forall j, (j < k)%nat -> failed_attempt (attempt_outcome e q j) = true)
  /\ (failed_attempt (attempt_outcome e q k) = false \/ k = (max_retrys - 1)%nat).

(** The number of retries after which the loop stops on the executor [e]:
    the first of the attempts [0 .. fuel] that does not fail, else [fuel]. *)
Fixpoint first_stop (fuel : nat) (e : E) (q : string) : nat :=
  match fuel with
  | O => O
  | S fuel' =>
      if failed_attempt (attempt_on e q) then S (first_stop fuel' (run e q).1 q)
      else O
  end.

Definition stop_index (e : E) (q : string) : nat :=
  first_stop (max_retrys - 1) e q.

(** A task with query [q] that starts on the executor [e] succeeds: one of
    its five attempts returns, the attempts before it having failed. *)
Definition task_succeeds (e : E) (q : string) : Prop :=
  exists j, (j < max_retrys)%nat
            /\ (forall i, (i < j)%nat ->
                           failed_attempt (attempt_outcome e q i) = true)
            /\ is_ok (attempt_outcome e q j) = true.

(** It fails for good: each of its five attempts fails. *)
Definition task_fails (e : E) (q : string) : Prop :=
  forall j, (j < max_retrys)%nat -> failed_attempt (attempt_outcome e q j) = true.

(** What a task returns or raises when its loop stops at attempt [k] with
    the outcome [r] of that attempt: the success record, the error that
    reports the [Exception] of the last attempt, or the exception itself when
    it is not an [Exception]. *)
Definition final_outcome (id : string) (q : string) (idx : nat) (k : nat)
    (r : Result PyVal) : Result PyVal :=
  match r with
  | Ok text => Ok (VDict (success_record idx q text id (elapsed_time idx k)))
  | Raise exc =>
      if isinstance_Exception exc then
        Raise (RuntimeError (error_message id (elapsed_time idx k) idx q exc))
      else Raise exc
  end.

(** The outcome of the task with index [idx] and query [q] on the worker
    [wk], and the events it causes. *)
Definition task_outcome (wk : WorkerAgentWrapper E) (q : string) (idx : nat)
    : Result PyVal :=
  let k := stop_index (agent wk) q in
  final_outcome (agent_id wk) q idx k (attempt_outcome (agent wk) q k).

Definition task_events (wk : WorkerAgentWrapper E) (q : string) : list Event :=
  retry_events (agent_id wk) q (stop_index (agent wk) q).

(** The effect of one task on the world: the executor of its worker has
    moved on, and the events have been appended. *)
Definition task_effect (self : nat) (e' : E) (evs : list Event) (w : World E)
    : World E :=
  mkWorld (alter (set_agent e') self (worker_pool w)) (pool_config w)
          (_pool_initialized w) (wall_clock w) (cancel_requested w)
          (trace w ++ evs).

(** What a worker handle records besides the executor it owns. *)
Definition handle (wk : WorkerAgentWrapper E) : string * Z * Z * bool * Z :=
  (agent_id wk, created_at wk, last_used wk, is_busy wk, task_count wk).

(** World [w'] differs from [w] at most in the states of executors and in
    the events logged. *)
Definition same_handles (w w' : World E) : Prop :=
  handle <$> worker_pool w' = handle <$> worker_pool w
  /\ pool_config w' = pool_config w
  /\ _pool_initialized w' = _pool_initialized w
  /\ wall_clock w' = wall_clock w
  /\ cancel_requested w' = cancel_requested w.

(** The record [{"error": str(exc)}] that aggregation files for a task whose
    coroutine raised the [Exception] [exc]. *)
Definition failure_record (exc : PyExc) : PyDict := [("error", VStr (exc_msg exc))].

(** The calls of an executor among the events of a world. *)
Definition is_run (ev : Event) : bool :=
  match ev with EvRun _ _ => true | _ => false end.

Definition runs_of (w : World E) : list Event := List.filter is_run (trace w).

(** A computation that may log events other than executor calls and read
    the clock, and nothing else. *)
Definition quiet {A} (m : M A) : Prop :=
  forall w, worker_pool (m w).2 = worker_pool w
         /\ pool_config (m w).2 = pool_config w
         /\ _pool_initialized (m w).2 = _pool_initialized w
         /\ cancel_requested (m w).2 = cancel_requested w
         /\ runs_of (m w).2 = runs_of w.

(** World [w1] is world [w] with at most some idle workers added at the end
    of the pool: no worker of [w] has changed, none is claimed, and no
    executor has run. *)
Definition untouched (w w1 : World E) : Prop :=
  worker_pool w `prefix_of` worker_pool w1
  /\ busy_count (worker_pool w1) = busy_count (worker_pool w)
  /\ runs_of w1 = runs_of w
  /\ (_pool_initialized w = true -> w1 = w).

(** The outcome and the events of one task of a batch, given the pool in
    which the batch starts: both depend on the task's own worker only. *)
Definition report_of (pool : list (WorkerAgentWrapper E))
    (t : nat * (nat * string)) (rep : Result PyVal * list Event) : Prop :=
  exists wk, pool !! t.2.1 = Some wk
          /\ rep = (task_outcome wk t.2.2 t.1, task_events wk t.2.2).

(** Among the results gathered from a batch, in task order: those that are
    no instances of [Exception], and the failure records of those that
    are. *)
Definition successes_of (outcomes : list PyVal) : list PyVal :=
  omap (fun v => match as_Exception v with Some _ => None | None => Some v end)
       outcomes.

Definition failures_of (outcomes : list PyVal) : list PyDict :=
  omap (fun v => failure_record <$> as_Exception v) outcomes.

(** *** The text of a result *)

(** The [messages] entry of a response when it is absent or a list. *)
Definition messages_list (response : PyDict) : option (list PyVal) :=
  match dict_get "messages" response with
  | None => Some []
  | Some (VList l) => Some l
  | Some _ => None
  end.

(** The content of a message: the attribute [content] of an object, the
    key [content] of a dict. *)
Definition content_of (message : PyVal) : option PyVal :=
  match message with
  | VObj _ attrs => dict_get "content" attrs
  | VDict d => dict_get "content" d
  | _ => None
  end.

(** The result text as the specification words it: the rendering of
    [output] when present; else the content of the last message when there
    is a message; else the rendering of the whole response. *)
Definition result_text_stated (response : PyDict) (messages : list PyVal)
    : option PyVal :=
  match dict_get "output" response with
  | Some out => Some (VStr (py_str out))
  | None =>
      match last messages with
      | Some message => content_of message
      | None => Some (VStr (py_str (VDict response)))
      end
  end.

(** The same, with the rendering of the whole response also when the last
    message has no content. *)
Definition result_text (response : PyDict) (messages : list PyVal) : PyVal :=
  match dict_get "output" response with
  | Some out => VStr (py_str out)
  | None =>
      match last messages ≫= content_of with
      | Some c => c
      | None => VStr (py_str (VDict response))
      end
  end.

End Vocabulary.

(** ** Further vocabulary: the pool *)

Section MoreVocabulary.
Context {E : Type} `{Executor E} `{Builtins}.

(** The agents that [initialize_pool] constructs for a configuration, with
    their names, in the order of construction. *)
Definition new_agents (config : PoolConfig AgentKwargs) (model : Model)
    : list (string * E) :=
  (fun i => (agent_name i,
             SearchAgent (agent_name i) model
                         (default no_kwargs (agent_config config))))
    <$> range (default MAX_POOL_SIZE (max_pool_size config)).

(** The outcome of starting all of them at once: the started agents, or the
    exception of one that failed. *)
Fixpoint start_all (agents : list (string * E)) : Result (list (string * E)) :=
  match agents with
  | [] => Ok []
  | p :: ps =>
      match start p.2, start_all ps with
      | Ok a, Ok l => Ok ((p.1, a) :: l)
      | Raise e, _ => Raise e
      | Ok _, Raise e => Raise e
      end
  end.

(** The handles that wrap started agents when the wall clock reads
    [clock]: each construction reads the clock twice. *)
Fixpoint wrap (clock : Z) (started : list (string * E))
    : list (WorkerAgentWrapper E) :=
  match started with
  | [] => []
  | p :: ps => mkWorker p.2 p.1 clock (clock + 1) false 0 :: wrap (clock + 2) ps
  end.

(** World [w] with further events logged. *)
Definition with_events (evs : list Event) (w : World E) : World E :=
  mkWorld (worker_pool w) (pool_config w) (_pool_initialized w)
          (wall_clock w) (cancel_requested w) (trace w ++ evs).

(** The world after [initialize_pool] has constructed and started the
    agents of configuration [config], before it wraps any of them. *)
Definition after_starts (config : PoolConfig AgentKwargs) (model : Model)
    (w : World E) : World E :=
  with_events ((EvCreate <$> (new_agents config model).*1)
               ++ (EvStart <$> (new_agents config model).*1))
              (with_config config w).

(** Calls of [WorkerAgentWrapper.execute] on one handle, one after the
    other, whatever each of them returns or raises. *)
Fixpoint execute_each (self : nat) (queries : list string) (w : World E)
    : World E :=
  match queries with
  | [] => w
  | q :: queries' => execute_each self queries' (execute self q w).2
  end.

Definition is_sleep (ev : Event) : bool :=
  match ev with EvSleep _ => true | _ => false end.

Definition count_runs (evs : list Event) : nat := length (List.filter is_run evs).

Definition count_sleeps (evs : list Event) : nat :=
  length (List.filter is_sleep evs).

(** A batch admitted in [w1] has ended in [w2] with result [r]. *)
Definition batch_ends (subtasks : list string) (w w1 : World E)
    (r : Result BatchResult) (w2 : World E) : Prop :=
  ensure_initialized w = (Ok tt, w1)
  /\ admitted subtasks w1
  /\ execute_subtasks subtasks w = (r, w2).



End MoreVocabulary.

(** ** [get_pool_size] *)

Module Pools.

(** pools.py, the defaults of [load_pool_config]. *)
Definition fallback_config : PyVal :=
  VDict [("pools",
          VDict [ ("search", VDict [("max_pool_size", VInt 5)]);
                  ("browser", VDict [("max_pool_size", VInt 5)]);
                  ("code", VDict [("max_pool_size", VInt 2)]);
                  ("filesystem", VDict [("max_pool_size", VInt 2)]);
                  ("media", VDict [("max_pool_size", VInt 1)]) ])].

(** pools.py, [load_pool_config], given what [yaml.safe_load] read from
    pool_config.yaml when the file exists. *)
Definition load_pool_config (yaml_file : option PyVal) : PyVal :=
  match yaml_file with
  | Some loaded => loaded
  | None => fallback_config
  end.

(** [v.get(k, default)]: a method of dicts only. *)
Definition py_get (k : string) (default : PyVal) (v : PyVal) : Result PyVal :=
  match v with
  | VDict d => Ok (dict_get_default k default d)
  | _ => Raise (AttributeError "object has no attribute 'get'")
  end.

(** pools.py, [get_pool_size], on the module's [_CONFIG]. *)
Definition get_pool_size (_CONFIG : PyVal) (pool_name : string) : Result PyVal :=
  match py_get "pools" (VDict []) _CONFIG with
  | Raise e => Raise e
  | Ok pools =>
      match py_get pool_name (VDict []) pools with
      | Raise e => Raise e
      | Ok pool => py_get "max_pool_size" (VInt 1) pool
      end
  end.

(** A configuration in which every pool listed is a dict. *)
Definition pools_of (_CONFIG : PyVal) (pools : PyDict) : Prop :=
  (exists c, _CONFIG = VDict c
             /\ dict_get_default "pools" (VDict []) c = VDict pools)
  /\ Forall (fun entry => exists pool, entry.2 = VDict pool) pools.

(** The size configured for a pool, if one is. *)
Definition configured_size (pools : PyDict) (pool_name : string) : option PyVal :=
  match dict_get pool_name pools with
  | Some (VDict pool) => dict_get "max_pool_size" pool
  | _ => None
  end.

End Pools.

(** ** [SearchExecutor]

    search_executor.py: the executor that the pool wraps (as its subclass
    [SearchAgent], which adds nothing).  What lies behind it is kept
    abstract: the chat model, the MCP client and its tools, the agent graph
    that LangChain builds, and the process environment. *)
Module SearchExecutor.

Class Backend : Type := {
  ChatModel : Type;
  Tool : Type;
  Client : Type;
  Graph : Type;
  (** [tool.name] *)
  tool_name : Tool -> string;
  (** the constructor [MultiServerMCPClient], given the server table *)
  MultiServerMCPClient : PyDict -> Client;
  (** [await client.get_tools()] *)
  get_tools : Client -> Result (list Tool);
  (** [create_agent(model=..., tools=..., system_prompt=...)] *)
  create_agent : ChatModel -> list Tool -> string -> Graph;
  (** [await graph.ainvoke(inputs, config=...)]: the graph after the call
      and what the call returned or raised *)
  ainvoke : Graph -> PyDict -> PyDict -> Graph * Result PyDict;
  (** [os.getenv(name)] *)
  getenv : string -> option string;
  (** the module constants computed from the path of the source file *)
  _FIRECRAWL_SERVER_DIR : string;
  _FIRECRAWL_INDEX_JS : string;
  (** the text of the class constant [DEFAULT_SYSTEM_MESSAGE] and the value
      of [DEFAULT_ENV["FIRECRAWL_API_KEY"]] *)
  DEFAULT_SYSTEM_MESSAGE : string;
  DEFAULT_FIRECRAWL_API_KEY : string;
  (** [get_pool_size("search")] and the [ChatOpenAI] client that
      [initialize_pool] builds when it is given no model *)
  search_pool_size : Z;
  openai_model : ChatModel
}.

Section Defs.
Context `{Backend}.

(** The attributes of an instance. *)
Record t : Type := mk {
  name : string;
  model : ChatModel;
  _description : string;
  _command : string;
  _args : list string;
  _env : list (string * string);
  _system_message : string;
  _mcp_client : option Client;
  _agent_graph : option Graph
}.

Definition set_client (c : option Client) (self : t) : t :=
  mk (name self) (model self) (_description self) (_command self) (_args self)
     (_env self) (_system_message self) c (_agent_graph self).

Definition set_graph (g : option Graph) (self : t) : t :=
  mk (name self) (model self) (_description self) (_command self) (_args self)
     (_env self) (_system_message self) (_mcp_client self) g.

Definition DEFAULT_DESCRIPTION : string :=
  "Performs web searches and crawls web pages using the Firecrawl MCP server. "
  +:+ "Can search for information, retrieve web content, and analyze search results.".

Definition DEFAULT_COMMAND : string := "/usr/local/bin/node".
Definition DEFAULT_ARGS : list string := [_FIRECRAWL_INDEX_JS].
Definition DEFAULT_ENV : list (string * string) :=
  [("FIRECRAWL_API_KEY", DEFAULT_FIRECRAWL_API_KEY)].

(** [x or y] for an optional string [x]: [None] and the empty string are
    false. *)
Definition str_or (x : option string) (y : string) : string :=
  match x with
  | Some s => if String.eqb s "" then y else s
  | None => y
  end.

(** A dict from strings to strings, in insertion order: [d.get(k)],
    [d[k] = v] and [d.update(e)]. *)
Fixpoint env_get (k : string) (d : list (string * string)) : option string :=
  match d with
  | [] => None
  | (k', v) :: d' => if String.eqb k k' then Some v else env_get k d'
  end.

Fixpoint env_set (k v : string) (d : list (string * string))
    : list (string * string) :=
  match d with
  | [] => [(k, v)]
  | (k', v') :: d' =>
      if String.eqb k k' then (k, v) :: d' else (k', v') :: env_set k v d'
  end.

Definition env_update (d e : list (string * string)) : list (string * string) :=
  foldl (fun acc kv => env_set kv.1 kv.2 acc) d e.

(** [SearchExecutor.__init__]. *)
Definition new (name : string) (model : ChatModel)
    (description command : option string) (args : option (list string))
    (env : option (list (string * string))) (system_message : option string) : t :=
  let merged_env :=
    match env with
    | Some (kv :: e) => env_update DEFAULT_ENV (kv :: e)
    | _ => DEFAULT_ENV
    end in
  mk name model
     (str_or description DEFAULT_DESCRIPTION)
     (str_or command (default DEFAULT_COMMAND (getenv "SEARCH_AGENT_COMMAND")))
     (default DEFAULT_ARGS args)
     merged_env
     (str_or system_message DEFAULT_SYSTEM_MESSAGE)
     None None.

Definition useful_tool_names : list string :=
  ["firecrawl_scrape"; "firecrawl_search"; "firecrawl_crawl"; "firecrawl_extract"].

Definition is_useful (tool : Tool) : bool :=
  existsb (String.eqb (tool_name tool)) useful_tool_names.

(** The table [mcp_servers] built by [start]. *)
Definition mcp_servers (self : t) : PyDict :=
  [("firecrawl",
    VDict [ ("command", VStr (_command self));
            ("args", VList (VStr <$> _args self));
            ("env", VDict ((fun kv => (kv.1, VStr kv.2)) <$> _env self));
            ("transport", VStr "stdio");
            ("cwd", VStr _FIRECRAWL_SERVER_DIR) ])].

(** [SearchExecutor.start]: the instance after the call, and whether the
    call returned or raised. *)
Definition start (self : t) : t * Result unit :=
  let client := MultiServerMCPClient (mcp_servers self) in
  let self := set_client (Some client) self in
  match get_tools client with
  | Raise e => (self, Raise e)
  | Ok tools =>
      let tools := List.filter is_useful tools in
      (set_graph (Some (create_agent (model self) tools (_system_message self)))
                 self,
       Ok tt)
  end.

(** The argument of [run]: a string, or a list of message dicts. *)
Inductive Query : Type :=
| QText (text : string)
| QMessages (messages : list PyVal).

Definition not_started : PyExc :=
  RuntimeError "Agent not started. Call start() first.".

Definition user_message (text : string) : PyVal :=
  VDict [("role", VStr "user"); ("content", VStr text)].

(** [SearchExecutor.run]. *)
Definition run (self : t) (query : Query) : t * Result PyDict :=
  match _agent_graph self with
  | None => (self, Raise not_started)
  | Some graph =>
      let messages :=
        match query with
        | QText text => [user_message text]
        | QMessages messages => messages
        end in
      let '(graph', result) :=
        ainvoke graph [("messages", VList messages)]
                [("recursion_limit", VInt 50)] in
      (set_graph (Some graph') self, result)
  end.

(** [SearchExecutor.close]. *)
Definition close (self : t) : t := set_graph None (set_client None self).

(** The keyword arguments that [initialize_pool] may pass on to the
    constructor. *)
Record Kwargs : Type := mkKwargs {
  kw_description : option string;
  kw_command : option string;
  kw_args : option (list string);
  kw_env : option (list (string * string));
  kw_system_message : option string
}.

(** [SearchAgent] as the executor of the worker pool. *)
Definition pool_executor : Executor t :=
  Build_Executor t ChatModel Kwargs openai_model
    (mkKwargs None None None None None)
    (fun name model kw =>
       new name model (kw_description kw) (kw_command kw) (kw_args kw)
           (kw_env kw) (kw_system_message kw))
    (fun self =>
       match start self with
       | (self', Ok _) => Ok self'
       | (_, Raise e) => Raise e
       end)
    (fun self query => run self (QText query))
    search_pool_size.

(** _worker_wrapper.py, [WorkerAgentWrapper.cleanup], on a handle that owns
    a [SearchExecutor]: the executor has a [close] method, which is
    called. *)
Definition cleanup (self : nat) : @M t pool_executor unit :=
  @on_worker t pool_executor self
    (fun wk => @set_agent t (close (agent wk)) wk).

End Defs.
End SearchExecutor.
(** ** A scripted executor

    An executor whose answers are fixed in advance: its state is the list of
    outcomes that its next calls of [run] will produce.  The "model" handed
    to the constructor assigns each worker name its script. *)
Module Scripted.

Definition script : Type := list (Result PyDict).

Definition exhausted : PyExc := RuntimeError "Agent not started. Call start() first.".

Definition run_script (s : script) (query : string) : script * Result PyDict :=
  match s with
  | [] => ([], Raise exhausted)
  | r :: s' => (s', r)
  end.

#[export] Instance executor : Executor script := {|
  Model := string -> script;
  AgentKwargs := unit;
  default_model := fun _ => [];
  no_kwargs := tt;
  SearchAgent := fun name model _ => model name;
  start := fun s => Ok s;
  run := run_script;
  MAX_POOL_SIZE := 5
|}.

(** A rendering of the values that occur in the examples. *)
Definition render (v : PyVal) : string :=
  match v with
  | VNone => "None"
  | VBool true => "True"
  | VBool false => "False"
  | VInt z => pretty z
  | VStr s => s
  | VFloat _ => "0.0"
  | VList _ => "[...]"
  | VDict _ => "{...}"
  | VObj cls _ => "<" +:+ cls +:+ " object>"
  | VExc exc => exc_msg exc
  end.

#[export] Instance builtins : Builtins := {|
  py_str := render;
  py_round2 := fun q => q;
  format_exc := fun e => exc_type e +:+ ": " +:+ exc_msg e;
  elapsed_time := fun _ _ => 0%Q
|}.

Definition answer (text : string) : Result PyDict := Ok [("output", VStr text)].
Definition failure (msg : string) : Result PyDict := Raise (RuntimeError msg).

(** A worker as [initialize_pool] leaves it, with the given script and
    busy flag. *)
Definition worker (i : nat) (s : script) (busy : bool) : WorkerAgentWrapper script :=
  mkWorker s (agent_name i) 0 0 busy 0.

Definition world (pool : list (WorkerAgentWrapper script)) : World script :=
  mkWorld pool (mkConfig (Some (len pool)) (Some tt)) true 0 false [].

End Scripted.

(** Sample worlds and batches, on the scripted executor. *)
Module Samples.
Import Scripted.

(** Three idle workers: the first answers at once, the second fails five
    times, the third fails once and then answers. *)
Definition three_workers : World script :=
  world [ worker 0 [answer "A"] false;
          worker 1 (replicate 5 (failure "x")) false;
          worker 2 [failure "y"; answer "C"] false ].

Definition abc : list string := ["a"; "b"; "c"].

(** The same pool when the calling coroutine is being cancelled. *)
Definition three_workers_cancelled : World script :=
  mkWorld (worker_pool three_workers) (pool_config three_workers) true 0 true [].

(** A pool of three in which a batch in flight holds two workers. *)
Definition two_in_flight : World script :=
  world [ worker 0 [] true; worker 1 [] true; worker 2 [answer "A"] false ].

(** One worker whose executor fails four times and then answers. *)
Definition flaky_worker : WorkerAgentWrapper script :=
  worker 0 (replicate 4 (failure "busy") ++ [answer "late"])%list false.

Definition flaky : World script := world [flaky_worker].

(** A module just imported, and the world after [initialize_pool] was
    called in it with a capacity of two. *)
Definition fresh : World script := mkWorld [] (mkConfig None None) false 0 false [].

Definition capacity_two : option (PoolConfig (@AgentKwargs script executor)) :=
  Some (mkConfig (Some 2) None).
Definition capacity_four : option (PoolConfig (@AgentKwargs script executor)) :=
  Some (mkConfig (Some 4) None).

Definition initialized_with_two : World script :=
  (initialize_pool capacity_two (Some (fun _ => [])) fresh).2.

End Samples.

(** A sample backend for [SearchExecutor]: an MCP server that lists three
    tools, unless the executor was told to launch the command "offline", and
    an agent graph that always gives the same answer. *)
Module SampleBackend.

Definition listed_tools : list string :=
  ["firecrawl_search"; "browser_open"; "firecrawl_scrape"].

Definition tools_of (servers : PyDict) : Result (list string) :=
  match dict_get "firecrawl" servers with
  | Some (VDict server) =>
      match dict_get "command" server with
      | Some (VStr command) =>
          if String.eqb command "offline"
          then Raise (RuntimeError "connection refused")
          else Ok listed_tools
      | _ => Ok listed_tools
      end
  | _ => Ok listed_tools
  end.

Definition reply : PyDict :=
  [("messages", VList [VObj "AIMessage" [("content", VStr "found")]])].

#[export] Instance backend : SearchExecutor.Backend := {|
  SearchExecutor.ChatModel := unit;
  SearchExecutor.Tool := string;
  SearchExecutor.Client := PyDict;
  SearchExecutor.Graph := list string;
  SearchExecutor.tool_name := fun tool => tool;
  SearchExecutor.MultiServerMCPClient := fun servers => servers;
  SearchExecutor.get_tools := tools_of;
  SearchExecutor.create_agent := fun _ tools _ => tools;
  SearchExecutor.ainvoke := fun graph _ _ => (graph, Ok reply);
  SearchExecutor.getenv := fun _ => None;
  SearchExecutor._FIRECRAWL_SERVER_DIR := "/srv/firecrawl";
  SearchExecutor._FIRECRAWL_INDEX_JS := "/srv/firecrawl/dist/index.js";
  SearchExecutor.DEFAULT_SYSTEM_MESSAGE := "You are Search Agent.";
  SearchExecutor.DEFAULT_FIRECRAWL_API_KEY := "fc-default";
  SearchExecutor.search_pool_size := 5;
  SearchExecutor.openai_model := tt
|}.

Definition executor : Type := @SearchExecutor.t backend.

Definition pool : Executor executor := @SearchExecutor.pool_executor backend.

(** A module just imported, and the configurations of a pool of two whose
    executors launch the default command, or the command "offline". *)
Definition fresh : @World executor pool :=
  @mkWorld executor pool [] (mkConfig None None) false 0 false [].

Definition two_executors : option (PoolConfig (@AgentKwargs executor pool)) :=
  Some (mkConfig (Some 2) None).

Definition two_offline : option (PoolConfig (@AgentKwargs executor pool)) :=
  Some (mkConfig (Some 2)
          (Some (SearchExecutor.mkKwargs None (Some "offline") None None None))).

(** A started executor in a pool of one. *)
Definition started : executor :=
  (@SearchExecutor.start backend
     (@SearchExecutor.new backend "search_agent_0" tt None None None None None)).1.

Definition one_executor : @World executor pool :=
  @mkWorld executor pool
           [mkWorker started "search_agent_0" 0 1 false 0]
           (mkConfig (Some 1) None) true 2 false [].

End SampleBackend.

Module MoreSamples.
Import Scripted.

(** Two idle workers that answer at once. *)
Definition two_ready : World script :=
  world [worker 0 [answer "A"] false; worker 1 [answer "B"] false].

(** A worker whose executor first returns a response with a number where
    the messages should be. *)
Definition garbled : PyDict := [("messages", VInt 5)].

Definition garbling_worker : WorkerAgentWrapper script :=
  worker 0 [Ok garbled; answer "A"] false.

Definition garbling : World script := world [garbling_worker].

(** One worker whose executor never answers. *)
Definition always_failing : World script :=
  world [worker 0 (replicate 5 (failure "down")) false].

(** An initialized pool without capacity. *)
Definition no_workers : World script := world [].

(** Two idle workers: the call of the first is cancelled, although the
    executor would answer when called again; the second answers at once. *)
Definition cancelled_worker : WorkerAgentWrapper script :=
  worker 0 [Raise CancelledError; answer "A"] false.

Definition one_cancelled : World script :=
  world [cancelled_worker; worker 1 [answer "B"] false].

End MoreSamples.
(** * Properties *)

(** ** The text of a result *)

Section ExtractProofs.
Context `{Builtins}.

Lemma dict_has_get (k : string) (d : PyDict) :
  dict_has k d = match dict_get k d with Some _ => true | None => false end.
Proof. reflexivity. Qed.

Lemma getitem_last_list (x : PyVal) (l : list PyVal) (y : PyVal) :
  last (x :: l) = Some y -> getitem_last (VList (x :: l)) = Ok y.
Proof. intros Hl. unfold getitem_last. now rewrite Hl. Qed.

Lemma content_lookup (message : PyVal) :
  content_of message =
    match getattr "content" message with
    | Some c => Some c
    | None => dict_item "content" message
    end.
Proof.
  destruct message; simpl; try reflexivity.
  now destruct (dict_get "content" attrs).
Qed.

(** C10, as amended: the text of a result is the rendering of [output] when
    the response has that key; otherwise the content of the last message
    when the list of messages is not empty and that message has a content;
    otherwise the rendering of the whole response. *)
Theorem extract_output_result_text (response : PyDict) (messages : list PyVal) :
  messages_list response = Some messages ->
  _extract_output_from_dict response = Ok (result_text response messages).
Proof.
  unfold messages_list, _extract_output_from_dict, result_text.
  rewrite dict_has_get. unfold dict_get_default.
  destruct (dict_get "output" response) as [out|]; [reflexivity|].
  destruct (dict_get "messages" response) as [v|] eqn:Hm.
  - destruct v; try discriminate. intros [= ->].
    destruct messages as [|x l]; [reflexivity|].
    destruct (last (x :: l)) as [y|] eqn:Hl.
    + cbn [truthy]. rewrite (getitem_last_list _ _ _ Hl).
      cbn [mbind option_bind]. rewrite content_lookup.
      destruct (getattr "content" y); [reflexivity|].
      now destruct (dict_item "content" y).
    + now apply last_None in Hl.
  - intros [= <-]. reflexivity.
Qed.

End ExtractProofs.

Lemma extract_output_result_text_witness :
  @_extract_output_from_dict Scripted.builtins
    [("messages", VList [VStr "hi"; VDict [("role", VStr "ai"); ("content", VStr "done")]])]
  = Ok (VStr "done").
Proof.
  apply (@extract_output_result_text Scripted.builtins
           [("messages", VList [VStr "hi"; VDict [("role", VStr "ai"); ("content", VStr "done")]])]
           [VStr "hi"; VDict [("role", VStr "ai"); ("content", VStr "done")]]).
  reflexivity.
Defined.

(** C10, as stated, fails: a response without [output] whose last message
    has no content yields the rendering of the whole response, not the
    content of the last message. *)
Lemma extract_output_stated_fails :
  ~ (forall (B : Builtins) (response : PyDict) (messages : list PyVal),
        messages_list response = Some messages ->
        Some (_extract_output_from_dict response)
        = Ok <$> result_text_stated response messages).
Proof.
  intros Hc.
  specialize (Hc Scripted.builtins [("messages", VList [VStr "done"])] [VStr "done"] eq_refl).
  discriminate Hc.
Qed.

(** ** The pool *)

Section PoolProofs.
Context {E : Type} `{Executor E} `{Builtins}.

Implicit Types (w : World E) (pool : list (WorkerAgentWrapper E)).
Implicit Types (wk : WorkerAgentWrapper E) (subtasks : list string).

Ltac unfold_monad :=
  unfold bind, ret, raise, gets, modify, lift, try_except, try_finally in *.

(** *** Computations that leave the workers alone *)

Lemma quiet_ret {A} (a : A) : quiet (ret a).
Proof. intros w. now cbn. Qed.

Lemma quiet_lift {A} (r : Result A) : quiet (lift r).
Proof. intros w. now cbn. Qed.

Lemma runs_of_emit (ev : Event) w :
  runs_of ((emit ev) w).2 = (runs_of w ++ List.filter is_run [ev])%list.
Proof. unfold runs_of. cbn. apply List.filter_app. Qed.

Lemma quiet_emit (ev : Event) : is_run ev = false -> quiet (emit ev).
Proof.
  intros Hev w. repeat split.
  rewrite runs_of_emit. cbn. rewrite Hev. apply app_nil_r.
Qed.

Lemma quiet_datetime_now : quiet datetime_now.
Proof. intros w. now cbn. Qed.

Lemma quiet_bind {A B} (m : M A) (k : A -> M B) :
  quiet m -> (forall a, quiet (k a)) -> quiet (bind m k).
Proof.
  intros Hm Hk w. unfold bind. specialize (Hm w).
  destruct (m w) as [[a|e] w1]; cbn in *; [|exact Hm].
  destruct (Hk a w1) as (-> & -> & -> & -> & ->). exact Hm.
Qed.

Lemma quiet_comprehension {A B} (xs : list A) (f : A -> M B) :
  (forall x, quiet (f x)) -> quiet (comprehension xs f).
Proof.
  intros Hf. induction xs as [|x xs IH]; cbn [comprehension].
  - apply quiet_ret.
  - apply quiet_bind; [apply Hf|]. intros y.
    apply quiet_bind; [exact IH|]. intros ys. apply quiet_ret.
Qed.

Lemma quiet_gather {A} (tasks : list (M A)) :
  Forall quiet tasks -> quiet (gather tasks).
Proof.
  induction 1 as [|t ts Ht _ IH]; cbn [gather].
  - apply quiet_ret.
  - intros w. specialize (Ht w). destruct (t w) as [r w1]. cbn in Ht.
    specialize (IH w1). destruct (gather ts w1) as [rs w2]. cbn in IH.
    destruct IH as (Hp & Hc & Hi & Hr & Hu).
    destruct r, rs; cbn; rewrite Hp, Hc, Hi, Hr, Hu; exact Ht.
Qed.

Lemma quiet_create_agent (model : Model) (kwargs : AgentKwargs) (i : nat) :
  quiet (create_agent model kwargs i).
Proof.
  unfold create_agent. apply quiet_bind; [now apply quiet_emit|].
  intros _. apply quiet_ret.
Qed.

Lemma quiet_start_agent (p : string * E) : quiet (start_agent p).
Proof.
  unfold start_agent. apply quiet_bind; [now apply quiet_emit|]. intros _.
  apply quiet_bind; [apply quiet_lift|]. intros a. apply quiet_ret.
Qed.

(** The loop of [initialize_pool] that wraps the started agents appends one
    idle worker per agent. *)
Lemma wrap_agents_appends (agents : list (string * E)) w :
  exists new clock,
    for_each agents (fun p =>
      wrapper <- new_WorkerAgentWrapper p.2 p.1 ;;
      modify (with_pool (fun pool => (pool ++ [wrapper])%list))) w
    = (Ok tt, mkWorld (worker_pool w ++ new) (pool_config w) (_pool_initialized w)
                      clock (cancel_requested w) (trace w))
    /\ length new = length agents
    /\ Forall (fun wk => is_busy wk = false /\ task_count wk = 0) new.
Proof.
  revert w. induction agents as [|p agents IH]; intros w.
  - exists [], (wall_clock w). rewrite app_nil_r. destruct w. now cbn.
  - cbn [for_each]. unfold bind at 1. cbn.
    match goal with |- context [for_each agents ?f ?w1] =>
      destruct (IH w1) as (new & clock & -> & Hlen & Hall) end.
    cbn. eexists (_ :: new), clock. rewrite <- app_assoc. cbn.
    split; [reflexivity|]. split; [now rewrite Hlen|].
    constructor; [now cbn | exact Hall].
Qed.

(** *** [initialize_pool] *)

Lemma initialize_pool_initialized (config : option (PoolConfig AgentKwargs))
    (model : option Model) w :
  _pool_initialized w = true -> initialize_pool config model w = (Ok tt, w).
Proof.
  intros Hi. unfold initialize_pool. unfold_monad. now rewrite Hi.
Qed.

(** A successful initialization leaves the pool initialized, appends idle
    workers only, runs no executor and keeps the cancellation flag. *)
Lemma initialize_pool_ok (config : option (PoolConfig AgentKwargs))
    (model : option Model) w w1 :
  initialize_pool config model w = (Ok tt, w1) ->
  _pool_initialized w1 = true
  /\ cancel_requested w1 = cancel_requested w
  /\ runs_of w1 = runs_of w
  /\ exists new, worker_pool w1 = (worker_pool w ++ new)%list
              /\ Forall (fun wk => is_busy wk = false /\ task_count wk = 0) new.
Proof.
  unfold initialize_pool. unfold bind at 1. unfold gets.
  destruct (_pool_initialized w) eqn:Hi.
  - intros [= <-]. repeat split; [exact Hi|]. exists []. now rewrite app_nil_r.
  - unfold bind at 1. cbn [modify].
    set (w0 := with_config _ w).
    set (cfg := default default_config config).
    unfold bind at 1.
    pose proof (quiet_comprehension
                  (range (default MAX_POOL_SIZE (max_pool_size cfg)))
                  (create_agent (default default_model model)
                                (default no_kwargs (agent_config cfg)))
                  (quiet_create_agent _ _) w0) as Hq1.
    destruct (comprehension _ _ w0) as [[agents|e] wa]; [|discriminate].
    cbn in Hq1. unfold bind at 1.
    assert (Forall quiet (start_agent <$> agents)) as Hqs.
    { apply Forall_fmap, Forall_forall. intros p _. apply quiet_start_agent. }
    pose proof (quiet_gather _ Hqs wa) as Hq2.
    destruct (gather _ wa) as [[started|e] wb]; [|discriminate].
    cbn in Hq2. unfold bind at 1.
    destruct (wrap_agents_appends started wb) as (new & clock & -> & _ & Hall).
    cbn. intros [= <-]. cbn.
    destruct Hq1 as (Hp1 & _ & _ & Hc1 & Hr1), Hq2 as (Hp2 & _ & _ & Hc2 & Hr2).
    repeat split.
    + now rewrite Hc2, Hc1.
    + unfold runs_of in *. cbn in *. now rewrite Hr2, Hr1.
    + exists new. now rewrite Hp2, Hp1.
Qed.

(** C9: once the pool is initialized, [initialize_pool] returns at once,
    whatever configuration and model it is given: the world is left as it
    was, so no worker is created or started, and the pool keeps the size and
    the contents that the first call gave it. *)
Theorem initialize_pool_idempotent (config : option (PoolConfig AgentKwargs))
    (model : option Model) w :
  _pool_initialized w = true ->
  initialize_pool config model w = (Ok tt, w).
Proof. apply initialize_pool_initialized. Qed.

(** Two calls in a row: the second one changes nothing. *)
Lemma initialize_pool_twice (config1 config2 : option (PoolConfig AgentKwargs))
    (model1 model2 : option Model) w w1 :
  initialize_pool config1 model1 w = (Ok tt, w1) ->
  initialize_pool config2 model2 w1 = (Ok tt, w1).
Proof.
  intros H1. apply initialize_pool_initialized.
  now apply initialize_pool_ok in H1.
Qed.

(** *** Lazy initialization *)

Lemma busy_count_app pool new :
  Forall (fun wk => is_busy wk = false /\ task_count wk = 0) new ->
  busy_count (pool ++ new) = busy_count pool.
Proof.
  intros Hnew. unfold busy_count. rewrite List.filter_app, length_app.
  replace (List.filter is_busy new) with (@nil (WorkerAgentWrapper E)).
  - cbn. lia.
  - induction Hnew as [|wk new [Hb _] _ IH]; [reflexivity|].
    cbn. now rewrite Hb.
Qed.

Lemma ensure_initialized_ok w w1 :
  ensure_initialized w = (Ok tt, w1) ->
  untouched w w1 /\ cancel_requested w1 = cancel_requested w.
Proof.
  unfold ensure_initialized. unfold bind at 1. unfold gets.
  destruct (_pool_initialized w) eqn:Hi; cbn [negb].
  - intros [= <-]. split; [|reflexivity].
    split; [reflexivity|]. now repeat split.
  - intros Hinit. apply initialize_pool_ok in Hinit.
    destruct Hinit as (_ & Hc & Hr & new & Hp & Hnew).
    split; [|exact Hc].
    split; [rewrite Hp; now apply prefix_app_r|].
    split; [rewrite Hp; now apply busy_count_app|].
    split; [exact Hr|]. intros Ht. rewrite Hi in Ht. discriminate.
Qed.

Lemma ensure_initialized_initialized w :
  _pool_initialized w = true -> ensure_initialized w = (Ok tt, w).
Proof. intros Hi. unfold ensure_initialized. unfold_monad. now rewrite Hi. Qed.

(** The part of [execute_subtasks] that follows the lazy initialization is
    entered in the world that the initialization leaves. *)
Ltac after_initialization Hinit :=
  unfold execute_subtasks; unfold bind at 1; unfold gets at 1;
  unfold ensure_initialized in Hinit; unfold bind at 1 in Hinit;
  unfold gets at 1 in Hinit; unfold bind at 1;
  rewrite Hinit; clear Hinit.

(** *** Validation *)

Lemma len_not_below_1 subtasks :
  (1 <= length subtasks)%nat -> (len subtasks <? 1) = false.
Proof. intros Hn. apply Z.ltb_ge. unfold len. lia. Qed.

Lemma len_nonempty subtasks :
  (1 <= length subtasks)%nat ->
  ((match subtasks with [] => true | _ => false end) || (len subtasks <? 1)) = false.
Proof.
  destruct subtasks as [|st subtasks]; cbn [length]; [lia|]. intros _.
  cbn [orb]. apply Z.ltb_ge. unfold len. cbn [length]. lia.
Qed.

Lemma within_capacity (n c : Z) : n <= c -> (n >? c) = false.
Proof. intros Hn. rewrite Z.gtb_ltb. now apply Z.ltb_ge. Qed.

Lemma no_subtask_not_too_many (n m : Z) : no_subtask <> too_many n m.
Proof. discriminate. Qed.

(** C6: a batch that is empty, or larger than the capacity of the pool, is
    rejected with a [ValueError], a different one in the two cases.  The world
    is the one that the lazy initialization leaves: no worker is claimed,
    no executor runs, and an initialized pool is not touched at all. *)
Theorem invalid_batch_rejected subtasks w w1 :
  ensure_initialized w = (Ok tt, w1) ->
  subtasks = [] \/ capacity w1 < len subtasks ->
  execute_subtasks subtasks w
  = (Raise (match subtasks with
            | [] => no_subtask
            | _ => too_many (len subtasks) (capacity w1)
            end), w1)
  /\ untouched w w1
  /\ forall n m, no_subtask <> too_many n m.
Proof.
  intros Hinit Hbad.
  split; [|split; [now apply ensure_initialized_ok in Hinit
                  | apply no_subtask_not_too_many]].
  after_initialization Hinit.
  destruct subtasks as [|st subtasks]; [reflexivity|].
  destruct Hbad as [Hbad|Hbad]; [discriminate|].
  cbn [orb]. rewrite len_not_below_1 by (cbn; lia).
  unfold bind at 1. unfold gets at 1. fold (capacity w1).
  apply Z.lt_gt, Z.gtb_gt in Hbad. now rewrite Hbad.
Qed.

(** *** Allocation *)

Lemma idle_from_length (i : nat) pool :
  length (idle_from i pool) = idle_count pool.
Proof.
  revert i. induction pool as [|wk pool IH]; intros i; [reflexivity|].
  unfold idle_count in *. cbn. destruct (is_busy wk); cbn; now rewrite IH.
Qed.

Lemma idle_from_spec (i : nat) pool (a : nat) :
  a ∈ idle_from i pool ->
  (i <= a)%nat /\ exists wk, pool !! (a - i)%nat = Some wk /\ is_busy wk = false.
Proof.
  revert i. induction pool as [|wk pool IH]; intros i; cbn [idle_from].
  - intros Ha. now apply elem_of_nil in Ha.
  - destruct (is_busy wk) eqn:Hb.
    + intros Ha. destruct (IH _ Ha) as (Hle & wk' & Hl & Hb'). split; [lia|].
      exists wk'. split; [|exact Hb'].
      replace (a - i)%nat with (S (a - S i)) by lia. exact Hl.
    + intros Ha. apply elem_of_cons in Ha as [->|Ha].
      * split; [lia|]. exists wk. now rewrite Nat.sub_diag.
      * destruct (IH _ Ha) as (Hle & wk' & Hl & Hb'). split; [lia|].
        exists wk'. split; [|exact Hb'].
        replace (a - i)%nat with (S (a - S i)) by lia. exact Hl.
Qed.

Lemma idle_from_NoDup (i : nat) pool : NoDup (idle_from i pool).
Proof.
  revert i. induction pool as [|wk pool IH]; intros i; cbn [idle_from].
  - constructor.
  - destruct (is_busy wk); [apply IH|].
    constructor; [|apply IH].
    intros Ha. apply idle_from_spec in Ha. lia.
Qed.

Lemma claimed_idle (n : nat) w (a : nat) :
  a ∈ claimed n w ->
  exists wk, worker_pool w !! a = Some wk /\ is_busy wk = false.
Proof.
  unfold claimed, idle_workers. intros Ha.
  apply elem_of_take in Ha as (j & Hj & _).
  apply list_elem_of_lookup_2, idle_from_spec in Hj.
  destruct Hj as (_ & wk & Hl & Hb). rewrite Nat.sub_0_r in Hl. eauto.
Qed.

Lemma claimed_NoDup (n : nat) w : NoDup (claimed n w).
Proof.
  unfold claimed, idle_workers.
  eapply sublist_NoDup; [apply idle_from_NoDup | apply sublist_take].
Qed.

Lemma claimed_length (n : nat) w :
  length (claimed n w) = Nat.min n (idle_count (worker_pool w)).
Proof.
  unfold claimed, idle_workers. now rewrite length_take, idle_from_length.
Qed.

(** C2: when fewer workers are idle than the batch has tasks, the batch as
    a whole fails with the error "Not enough agents".  The world is the one
    in which the idle workers were counted: no busy flag has changed, no
    worker is claimed and no task has started. *)
Theorem insufficient_idle_rejected subtasks w w1 :
  ensure_initialized w = (Ok tt, w1) ->
  (1 <= length subtasks)%nat ->
  len subtasks <= capacity w1 ->
  (idle_count (worker_pool w1) < length subtasks)%nat ->
  execute_subtasks subtasks w
  = (Raise (not_enough (len subtasks) (Z.of_nat (idle_count (worker_pool w1)))), w1)
  /\ untouched w w1.
Proof.
  intros Hinit Hne Hcap Hidle.
  split; [|now apply ensure_initialized_ok in Hinit].
  after_initialization Hinit.
  rewrite len_nonempty by exact Hne.
  unfold bind at 1. unfold gets at 1. fold (capacity w1).
  rewrite within_capacity by exact Hcap.
  unfold bind at 1. unfold gets at 1.
  fold (claimed (length subtasks) w1).
  unfold len at 1 2. rewrite claimed_length.
  rewrite Nat.min_r by lia.
  replace (Z.of_nat (idle_count (worker_pool w1)) <? Z.of_nat (length subtasks))
    with true by (symmetry; apply Z.ltb_lt; lia).
  unfold raise, len. now rewrite claimed_length, Nat.min_r by lia.
Qed.

(** *** One task *)

Lemma task_effect_lookup_eq (self : nat) (e : E) (evs : list Event) w :
  worker_pool (task_effect self e evs w) !! self
  = set_agent e <$> worker_pool w !! self.
Proof. apply list_lookup_alter_eq. Qed.

Lemma task_effect_lookup_ne (self : nat) (e : E) (evs : list Event) w (j : nat) :
  self <> j ->
  worker_pool (task_effect self e evs w) !! j = worker_pool w !! j.
Proof. apply list_lookup_alter_ne. Qed.

Lemma task_effect_twice (self : nat) (e1 e2 : E) (evs1 evs2 : list Event) w :
  task_effect self e2 evs2 (task_effect self e1 evs1 w)
  = task_effect self e2 (evs1 ++ evs2) w.
Proof.
  unfold task_effect. cbn. rewrite list_alter_alter_eq, <- app_assoc.
  f_equal.
Qed.

Lemma task_effect_same_handles (self : nat) (e : E) (evs : list Event) w :
  same_handles w (task_effect self e evs w).
Proof.
  split; [|now cbn]. cbn.
  rewrite (list_fmap_alter handle (set_agent e) id)
    by (apply Forall_true; reflexivity).
  now apply list_alter_id.
Qed.

Lemma same_handles_refl w : same_handles w w.
Proof. now repeat split. Qed.

Lemma same_handles_trans w1 w2 w3 :
  same_handles w1 w2 -> same_handles w2 w3 -> same_handles w1 w3.
Proof.
  intros (H1 & H2 & H3 & H4 & H5) (K1 & K2 & K3 & K4 & K5).
  repeat split; congruence.
Qed.

Lemma agent_run_effect (self : nat) (q : string) w wk :
  worker_pool w !! self = Some wk ->
  agent_run self q w
  = ((run (agent wk) q).2,
     task_effect self (run (agent wk) q).1 [EvRun (agent_id wk) q] w).
Proof.
  intros Hl. unfold agent_run, get_worker. unfold bind at 1. rewrite Hl.
  destruct (run (agent wk) q) as [e' r]. reflexivity.
Qed.

Lemma worker_id_effect (self : nat) (e : E) (evs : list Event) w wk :
  worker_pool w !! self = Some wk ->
  worker_id self (task_effect self e evs w)
  = (Ok (agent_id wk), task_effect self e evs w).
Proof.
  intros Hl. unfold worker_id, gets.
  now rewrite task_effect_lookup_eq, Hl.
Qed.

Lemma sleep_effect (seconds : Z) (self : nat) (e : E) (evs : list Event) w :
  sleep seconds (task_effect self e evs w)
  = (Ok tt, task_effect self e (evs ++ [EvSleep seconds]) w).
Proof. unfold sleep, emit, modify, task_effect. cbn. now rewrite <- app_assoc. Qed.

(** One pass through the [try] block of the retry loop. *)
Lemma attempt_body (self : nat) (q : string) (idx attempt : nat) w wk :
  worker_pool w !! self = Some wk ->
  (response <- agent_run self q ;;
   final_text <- lift (_extract_output_from_dict response) ;;
   id <- worker_id self ;;
   ret (VDict (success_record idx q final_text id (elapsed_time idx attempt)))) w
  = (match attempt_on (agent wk) q with
     | Ok text =>
         Ok (VDict (success_record idx q text (agent_id wk)
                                   (elapsed_time idx attempt)))
     | Raise exc => Raise exc
     end,
     task_effect self (run (agent wk) q).1 [EvRun (agent_id wk) q] w).
Proof.
  intros Hl. unfold bind at 1. rewrite (agent_run_effect _ _ _ _ Hl).
  unfold attempt_on. destruct ((run (agent wk) q).2) as [response|exc];
    [|reflexivity].
  unfold bind at 1. unfold lift.
  destruct (_extract_output_from_dict response) as [text|exc]; [|reflexivity].
  unfold bind at 1. now rewrite (worker_id_effect _ _ _ _ _ Hl).
Qed.

(** The loop over the attempts [a, a+1, ..] stops where the executor makes
    it stop. *)
Lemma attempts_loop_stops (self : nat) (q : string) (idx : nat) (k : nat) :
  forall (a n : nat) w wk,
    worker_pool w !! self = Some wk ->
    (a + n = max_retrys)%nat ->
    (k < n)%nat ->
    (forall j, (j < k)%nat ->
               failed_attempt (attempt_outcome (agent wk) q j) = true) ->
    failed_attempt (attempt_outcome (agent wk) q k) = false
    \/ (a + k = max_retrys - 1)%nat ->
    attempts_loop self q idx (seq a n) w
    = (final_outcome (agent_id wk) q idx (a + k) (attempt_outcome (agent wk) q k),
       task_effect self (after_runs (S k) (agent wk) q)
                   (retry_events (agent_id wk) q k) w).
Proof.
  induction k as [|k IH]; intros a n w wk Hl Han Hkn Hbefore Hlast.
  - destruct n as [|n]; [lia|]. cbn [seq attempts_loop]. unfold try_except.
    rewrite (attempt_body _ _ _ _ _ _ Hl). rewrite Nat.add_0_r.
    unfold attempt_outcome in *. cbn [after_runs] in *.
    destruct (attempt_on (agent wk) q) as [text|exc]; [reflexivity|].
    cbn [failed_attempt final_outcome] in *.
    destruct (isinstance_Exception exc); [|reflexivity].
    destruct Hlast as [Hlast|Hlast]; [discriminate|].
    replace (a <? max_retrys - 1)%nat with false
      by (symmetry; apply Nat.ltb_ge; lia).
    unfold bind at 1. rewrite (worker_id_effect _ _ _ _ _ Hl). reflexivity.
  - destruct n as [|n]; [lia|]. cbn [seq attempts_loop]. unfold try_except.
    rewrite (attempt_body _ _ _ _ _ _ Hl).
    pose proof (Hbefore 0%nat ltac:(lia)) as Hfirst.
    unfold attempt_outcome in Hfirst. cbn [after_runs] in Hfirst.
    destruct (attempt_on (agent wk) q) as [text|exc]; [discriminate|].
    cbn [failed_attempt] in Hfirst. rewrite Hfirst.
    replace (a <? max_retrys - 1)%nat with true
      by (symmetry; apply Nat.ltb_lt; unfold max_retrys in *; lia).
    unfold bind at 1. rewrite sleep_effect.
    set (e1 := (run (agent wk) q).1).
    assert (worker_pool (task_effect self e1 ([EvRun (agent_id wk) q] ++ [EvSleep 1]) w)
              !! self = Some (set_agent e1 wk)) as Hl1
      by now rewrite task_effect_lookup_eq, Hl.
    rewrite (IH (S a) n _ _ Hl1); cbn [agent agent_id set_agent].
    + rewrite task_effect_twice. rewrite Nat.add_succ_r. reflexivity.
    + lia.
    + lia.
    + intros j Hj. apply (Hbefore (S j)). lia.
    + destruct Hlast as [Hlast|Hlast]; [now left | right; lia].
Qed.

(** The loop always stops, at [stop_index]. *)
Lemma first_stop_spec (fuel : nat) (e : E) (q : string) :
  (first_stop fuel e q <= fuel)%nat
  /\ (forall j, (j < first_stop fuel e q)%nat ->
             failed_attempt (attempt_outcome e q j) = true)
  /\ (failed_attempt (attempt_outcome e q (first_stop fuel e q)) = false
      \/ first_stop fuel e q = fuel).
Proof.
  revert e. induction fuel as [|fuel IH]; intros e; cbn [first_stop].
  - repeat split; [lia | intros j Hj; lia | now right].
  - destruct (failed_attempt (attempt_on e q)) eqn:Hfailed.
    + destruct (IH (run e q).1) as (Hle & Hbefore & Hlast).
      split; [lia|]. split.
      * intros [|j] Hj; [exact Hfailed|]. apply Hbefore. lia.
      * destruct Hlast as [Hlast|Hlast]; [now left | right; lia].
    + repeat split; [lia | intros j Hj; lia | now left].
Qed.

Lemma stop_index_stops (e : E) (q : string) :
  (stop_index e q <= max_retrys - 1)%nat /\ stops_at e q (stop_index e q).
Proof.
  unfold stop_index, stops_at.
  destruct (first_stop_spec (max_retrys - 1) e q) as (Hle & Hbefore & Hlast).
  auto.
Qed.

Lemma stops_at_stop_index (e : E) (q : string) (k : nat) :
  (k <= max_retrys - 1)%nat -> stops_at e q k -> k = stop_index e q.
Proof.
  intros Hk (Hbefore & Hlast).
  destruct (stop_index_stops e q) as (Hle & Hbefore' & Hlast').
  destruct (Nat.lt_trichotomy k (stop_index e q)) as [Hlt|[Heq|Hgt]];
    [|exact Heq|].
  - destruct Hlast as [Hok|Hk4]; [|lia].
    rewrite (Hbefore' _ Hlt) in Hok. discriminate.
  - destruct Hlast' as [Hok|Hk4]; [|lia].
    rewrite (Hbefore _ Hgt) in Hok. discriminate.
Qed.

(** What [execute_on_agent] does on a worker of the pool. *)
Lemma execute_on_agent_effect (self : nat) (q : string) (idx : nat) w wk :
  worker_pool w !! self = Some wk ->
  execute_on_agent self q idx w
  = (task_outcome wk q idx,
     task_effect self (after_runs (S (stop_index (agent wk) q)) (agent wk) q)
                 (task_events wk q) w).
Proof.
  intros Hl. unfold execute_on_agent, task_outcome, task_events.
  destruct (stop_index_stops (agent wk) q) as (Hle & Hbefore & Hlast).
  rewrite (attempts_loop_stops self q idx (stop_index (agent wk) q)
             0 max_retrys w wk Hl); try reflexivity.
  - unfold max_retrys in *. lia.
  - exact Hbefore.
  - destruct Hlast as [Hlast|Hlast]; [now left | now right].
Qed.

(** Four failed attempts and then one that returns: the loop stops at
    attempt 4. *)
Lemma stops_at_fifth (e : E) (q : string) :
  (forall j, (j < 4)%nat -> failed_attempt (attempt_outcome e q j) = true) ->
  stop_index e q = 4%nat.
Proof.
  intros Hfail. symmetry. apply stops_at_stop_index; [unfold max_retrys; lia|].
  split; [exact Hfail | now right].
Qed.

(** C4: the retry loop of a task stops after at most five attempts: at the
    first attempt that does not fail, or else at the fifth.  An attempt
    fails when the executor, or the extraction of its text, raises an
    [Exception], the only errors that the loop handles.  Between two
    attempts the loop sleeps one second, every time the same: its events are
    a call of the executor, then a sleep of 1 and a further call for each
    retry.  The task returns a success record if the attempt at which it
    stops returned, in particular when the first four attempts fail and the
    fifth returns, and raises otherwise. *)
Theorem retry_loop_bounded_constant_backoff (self : nat) (q : string)
    (idx : nat) w wk :
  worker_pool w !! self = Some wk ->
  (exists k,
      (k < 5)%nat
      /\ stops_at (agent wk) q k
      /\ execute_on_agent self q idx w
         = (final_outcome (agent_id wk) q idx k (attempt_outcome (agent wk) q k),
            task_effect self (after_runs (S k) (agent wk) q)
                        (EvRun (agent_id wk) q
                         :: concat (replicate k [EvSleep 1; EvRun (agent_id wk) q]))
                        w))
  /\ (forall text,
        (forall j, (j < 4)%nat ->
                   failed_attempt (attempt_outcome (agent wk) q j) = true) ->
        attempt_outcome (agent wk) q 4 = Ok text ->
        (execute_on_agent self q idx w).1
        = Ok (VDict (success_record idx q text (agent_id wk) (elapsed_time idx 4)))).
Proof.
  intros Hl. rewrite (execute_on_agent_effect _ _ _ _ _ Hl).
  destruct (stop_index_stops (agent wk) q) as (Hle & Hstop).
  split.
  - exists (stop_index (agent wk) q).
    split; [unfold max_retrys in Hle; lia|]. split; [exact Hstop|reflexivity].
  - intros text Hfail Hok. cbn [fst].
    unfold task_outcome. rewrite (stops_at_fifth _ _ Hfail), Hok. reflexivity.
Qed.

(** *** Claim and release *)

Lemma for_each_set_busy (b : bool) (available : list nat) w :
  for_each available (fun a => on_worker a (set_is_busy b)) w
  = (Ok tt, with_pool (set_busy_all b available) w).
Proof.
  revert w. induction available as [|a available IH]; intros w;
    cbn [for_each].
  - destruct w. reflexivity.
  - unfold bind at 1. unfold on_worker at 1. unfold modify. now rewrite IH.
Qed.

Lemma set_busy_all_lookup (b : bool) (available : list nat) pool (j : nat) :
  set_busy_all b available pool !! j
  = (if bool_decide (j ∈ available) then set_is_busy b else id) <$> pool !! j.
Proof.
  revert pool. induction available as [|a available IH]; intros pool.
  - cbn. now destruct (pool !! j).
  - change (set_busy_all b (a :: available) pool)
      with (set_busy_all b available (alter (set_is_busy b) a pool)).
    rewrite IH. destruct (decide (a = j)) as [->|Hne].
    + rewrite list_lookup_alter_eq.
      rewrite (bool_decide_eq_true_2 (j ∈ j :: available)) by apply list_elem_of_here.
      destruct (pool !! j) as [wk|]; [|reflexivity]. cbn.
      now destruct (bool_decide (j ∈ available)).
    + rewrite list_lookup_alter_ne by exact Hne.
      destruct (decide (j ∈ available)) as [Hin|Hnin].
      * rewrite !bool_decide_eq_true_2; [reflexivity| |exact Hin].
        now apply list_elem_of_further.
      * rewrite !bool_decide_eq_false_2; [reflexivity| |exact Hnin].
        intros Hin. apply elem_of_cons in Hin as [->|Hin]; [now apply Hne|].
        now apply Hnin.
Qed.

Lemma after_claim_lookup (n : nat) w (a : nat) :
  a ∈ claimed n w ->
  exists wk, worker_pool w !! a = Some wk
          /\ is_busy wk = false
          /\ worker_pool (after_claim n w) !! a = Some (set_is_busy true wk).
Proof.
  intros Ha. destruct (claimed_idle _ _ _ Ha) as (wk & Hl & Hb).
  exists wk. repeat split; [exact Hl | exact Hb |].
  unfold after_claim. cbn. rewrite set_busy_all_lookup, Hl.
  now rewrite bool_decide_eq_true_2.
Qed.

(** Releasing the claimed workers after the tasks have run gives every
    handle of the pool the contents it had before the claim. *)
Lemma release_restores (n : nat) w w2 :
  same_handles (after_claim n w) w2 ->
  handle <$> set_busy_all false (claimed n w) (worker_pool w2)
  = handle <$> worker_pool w.
Proof.
  intros (Hh & _). apply list_eq. intros j.
  rewrite !list_lookup_fmap, set_busy_all_lookup.
  apply (f_equal (fun l => l !! j)) in Hh.
  rewrite !list_lookup_fmap in Hh. unfold after_claim in Hh. cbn in Hh.
  rewrite set_busy_all_lookup in Hh.
  destruct (decide (j ∈ claimed n w)) as [Hin|Hnin].
  - rewrite bool_decide_eq_true_2 in * by exact Hin.
    destruct (claimed_idle _ _ _ Hin) as (wk & Hl & Hb).
    rewrite Hl in *. destruct (worker_pool w2 !! j) as [wk2|]; [|discriminate].
    destruct wk as [e i c l b t], wk2 as [e2 i2 c2 l2 b2 t2].
    unfold handle, set_is_busy in *. cbn in *.
    injection Hh as -> -> -> _ ->. now rewrite Hb.
  - rewrite bool_decide_eq_false_2 in * by exact Hnin.
    destruct (worker_pool w !! j) as [wk|],
             (worker_pool w2 !! j) as [wk2|]; cbn in *; congruence.
Qed.

Lemma busy_flags_handles pool pool' :
  handle <$> pool' = handle <$> pool -> is_busy <$> pool' = is_busy <$> pool.
Proof.
  intros Hh.
  change is_busy with ((fun h : string * Z * Z * bool * Z => h.1.2) ∘ (@handle E)).
  now rewrite !list_fmap_compose, Hh.
Qed.

Lemma idle_count_flags pool pool' :
  is_busy <$> pool' = is_busy <$> pool -> idle_count pool' = idle_count pool.
Proof.
  revert pool'. induction pool as [|wk pool IH]; intros [|wk' pool'] Hf;
    try discriminate; [reflexivity|].
  cbn in Hf. injection Hf as Hb Hf. unfold idle_count in *. cbn.
  rewrite Hb. destruct (is_busy wk); cbn; now rewrite (IH _ Hf).
Qed.

(** *** The tasks of a batch *)

Lemma run_all_length {A} (tasks : list (M A)) w :
  length (run_all tasks w).1 = length tasks.
Proof.
  revert w. induction tasks as [|t tasks IH]; intros w; [reflexivity|].
  cbn [run_all]. destruct (t w) as [r w1]. specialize (IH w1).
  destruct (run_all tasks w1) as [rs w2]. cbn in *. now rewrite IH.
Qed.

Lemma enumerate_zip_length (i : nat) (available : list nat) subtasks :
  length (enumerate_zip i available subtasks)
  = Nat.min (length available) (length subtasks).
Proof.
  revert i subtasks. induction available as [|a available IH];
    intros i [|st subtasks]; cbn; try reflexivity. now rewrite IH.
Qed.

Lemma enumerate_zip_lookup (available : list nat) subtasks :
  forall (i j : nat) (t : nat * (nat * string)),
    enumerate_zip i available subtasks !! j = Some t <->
    exists a st, available !! j = Some a /\ subtasks !! j = Some st
              /\ t = ((i + j)%nat, (a, st)).
Proof.
  revert subtasks. induction available as [|a available IH];
    intros [|st subtasks] i j t; cbn [enumerate_zip].
  - split; [discriminate|]. now intros (? & ? & ? & _).
  - split; [discriminate|]. now intros (? & ? & ? & _).
  - split; [discriminate|]. now intros (? & ? & _ & ? & _).
  - destruct j as [|j]; cbn.
    + rewrite Nat.add_0_r. split.
      * intros [= <-]. now exists a, st.
      * now intros (? & ? & [= <-] & [= <-] & ->).
    + rewrite IH. replace (S i + j)%nat with (i + S j)%nat by lia. reflexivity.
Qed.

Lemma successes_of_cons (v : PyVal) (outcomes : list PyVal) :
  successes_of (v :: outcomes)
  = match as_Exception v with
    | Some _ => successes_of outcomes
    | None => v :: successes_of outcomes
    end.
Proof. unfold successes_of. cbn. now destruct (as_Exception v). Qed.

Lemma failures_of_cons (v : PyVal) (outcomes : list PyVal) :
  failures_of (v :: outcomes)
  = match as_Exception v with
    | Some exc => failure_record exc :: failures_of outcomes
    | None => failures_of outcomes
    end.
Proof. unfold failures_of. cbn. now destruct (as_Exception v). Qed.

Lemma aggregate_sorts (outcomes : list PyVal) :
  aggregate outcomes = (successes_of outcomes, failures_of outcomes).
Proof.
  induction outcomes as [|v outcomes IH]; [reflexivity|].
  cbn [aggregate]. rewrite IH, successes_of_cons, failures_of_cons.
  now destruct (as_Exception v).
Qed.


(** What [asyncio.gather] lists for a task, by the way the task ended. *)
Lemma gathered_record (d : PyDict) : as_Exception (gathered (Ok (VDict d))) = None.
Proof. reflexivity. Qed.

Lemma gathered_Exception (exc : PyExc) :
  isinstance_Exception exc = true ->
  gathered (Raise exc) = VExc exc /\ as_Exception (gathered (Raise exc)) = Some exc.
Proof.
  intros Hexc.
  assert (gathered (Raise exc) = VExc exc) as ->.
  { unfold gathered, isinstance_CancelledError.
    unfold isinstance_Exception in Hexc. now destruct (exc_base exc). }
  split; [reflexivity|]. cbn. now rewrite Hexc.
Qed.

Lemma gathered_other (exc : PyExc) :
  isinstance_Exception exc = false ->
  exists exc', gathered (Raise exc) = VExc exc'
               /\ isinstance_Exception exc' = false
               /\ (isinstance_CancelledError exc = false -> exc' = exc)
               /\ (isinstance_CancelledError exc = true -> exc' = CancelledError).
Proof.
  intros Hexc. unfold gathered.
  destruct (isinstance_CancelledError exc) eqn:Hc.
  - exists CancelledError. repeat split; congruence.
  - exists exc. repeat split; congruence.
Qed.

(** Every task of a batch runs on its own worker: its outcome and its
    events are those of the task alone, and the handles are left as they
    were. *)
Lemma run_all_batch pool (available : list nat) :
  forall subtasks (i : nat) w,
    NoDup available ->
    (forall a, a ∈ available ->
               is_Some (pool !! a) /\ worker_pool w !! a = pool !! a) ->
    let tasks := (fun '(i, (a, st)) => execute_on_agent a st i)
                   <$> enumerate_zip i available subtasks in
    exists reports,
      Forall2 (report_of pool) (enumerate_zip i available subtasks) reports
      /\ (run_all tasks w).1 = reports.*1
      /\ trace (run_all tasks w).2 = (trace w ++ concat reports.*2)%list
      /\ same_handles w (run_all tasks w).2
      /\ (forall j, j ∉ available ->
                    worker_pool (run_all tasks w).2 !! j = worker_pool w !! j).
Proof.
  induction available as [|a available IH]; intros subtasks i w Hnd Hpool.
  - exists []. cbn. rewrite app_nil_r.
    split; [constructor|]. do 2 (split; [reflexivity|]).
    split; [apply same_handles_refl | reflexivity].
  - destruct subtasks as [|st subtasks].
    { exists []. cbn. rewrite app_nil_r.
      split; [constructor|]. do 2 (split; [reflexivity|]).
      split; [apply same_handles_refl | reflexivity]. }
    apply NoDup_cons in Hnd as [Hna Hnd].
    destruct (Hpool a (list_elem_of_here _ _)) as [[wk Hwk] Hl].
    rewrite Hwk in Hl.
    cbn [enumerate_zip fmap list_fmap run_all].
    rewrite (execute_on_agent_effect _ _ _ _ _ Hl).
    set (w1 := task_effect a _ _ w).
    destruct (IH subtasks (S i) w1 Hnd) as (reports & Hrep & Hrs & Htr & Hsh & Hother).
    { intros a' Ha'. destruct (Hpool a' (list_elem_of_further _ _ _ Ha')) as [Hs Hl'].
      split; [exact Hs|]. subst w1. rewrite task_effect_lookup_ne; [exact Hl'|].
      intros ->. now apply Hna. }
    cbn zeta in *.
    destruct (run_all _ w1) as [rs w2]. cbn [fst snd] in *.
    exists ((task_outcome wk st i, task_events wk st) :: reports).
    split; [|split; [|split; [|split]]].
    + constructor; [|exact Hrep]. now exists wk.
    + cbn. now rewrite Hrs.
    + rewrite Htr. subst w1. cbn. now rewrite <- app_assoc.
    + eapply same_handles_trans; [|exact Hsh]. apply task_effect_same_handles.
    + intros j Hj. apply not_elem_of_cons in Hj as [Hja Hj].
      rewrite (Hother j Hj). subst w1. now apply task_effect_lookup_ne.
Qed.

(** *** An admitted batch *)

(** What [execute_subtasks] does with a batch that it admits. *)
Lemma execute_subtasks_admitted subtasks w w1 :
  ensure_initialized w = (Ok tt, w1) ->
  admitted subtasks w1 ->
  execute_subtasks subtasks w
  = let n := length subtasks in
    if cancel_requested w1 then
      (Raise CancelledError,
       with_pool (set_busy_all false (claimed n w1)) (after_claim n w1))
    else
      let ran := run_all (batch_tasks (claimed n w1) subtasks) (after_claim n w1) in
      (Ok (mkBatch (successes_of (gathered <$> ran.1))
                   (failures_of (gathered <$> ran.1))
                   (len subtasks) (len subtasks) (capacity w1)),
       with_pool (set_busy_all false (claimed n w1)) ran.2).
Proof.
  intros Hinit (Hne & Hcap & Hidle).
  after_initialization Hinit.
  rewrite len_nonempty by exact Hne.
  unfold bind at 1. unfold gets at 1. fold (capacity w1).
  rewrite within_capacity by exact Hcap.
  unfold bind at 1. unfold gets at 1.
  fold (claimed (length subtasks) w1).
  assert (len (claimed (length subtasks) w1) = len subtasks) as Hlen
    by (unfold len; rewrite claimed_length; lia).
  rewrite Hlen, Z.ltb_irrefl.
  unfold bind at 1. rewrite for_each_set_busy.
  fold (after_claim (length subtasks) w1).
  fold (batch_tasks (claimed (length subtasks) w1) subtasks).
  unfold try_finally. unfold bind at 1. unfold gather_return_exceptions.
  change (cancel_requested (after_claim (length subtasks) w1))
    with (cancel_requested w1).
  cbn zeta. destruct (cancel_requested w1).
  - now rewrite for_each_set_busy.
  - destruct (run_all _ _) as [rs w2]. rewrite aggregate_sorts.
    unfold ret. now rewrite for_each_set_busy.
Qed.

Lemma batch_outcomes_length subtasks w1 :
  admitted subtasks w1 ->
  length (task_outcomes subtasks w1) = length subtasks.
Proof.
  intros (Hne & Hcap & Hidle). unfold task_outcomes, batch_tasks.
  rewrite length_fmap, run_all_length, length_fmap, enumerate_zip_length,
    claimed_length.
  lia.
Qed.


(** C3: however an admitted batch ends, with a result or with an exception
    raised after the allocation, every worker it claimed is idle again and
    every busy flag of the pool is what it was before the batch; the number
    of idle workers is the same as before. *)
Theorem claimed_workers_released subtasks w w1 :
  ensure_initialized w = (Ok tt, w1) ->
  admitted subtasks w1 ->
  forall r w2,
    execute_subtasks subtasks w = (r, w2) ->
    (forall a, a ∈ claimed (length subtasks) w1 ->
               is_busy <$> worker_pool w2 !! a = Some false)
    /\ busy_flags w2 = busy_flags w1
    /\ idle_count (worker_pool w2) = idle_count (worker_pool w1).
Proof.
  intros Hinit Hadm r w2 Hexec.
  rewrite (execute_subtasks_admitted _ _ _ Hinit Hadm) in Hexec.
  cbn zeta in Hexec.
  assert (forall w', same_handles (after_claim (length subtasks) w1) w' ->
            busy_flags (with_pool (set_busy_all false (claimed (length subtasks) w1)) w')
            = busy_flags w1) as Hrestore.
  { intros w' Hsame. unfold busy_flags. cbn.
    now apply busy_flags_handles, release_restores. }
  assert (busy_flags w2 = busy_flags w1) as Hflags.
  { destruct (cancel_requested w1); injection Hexec as _ <-; apply Hrestore.
    - apply same_handles_refl.
    - destruct (run_all_batch (worker_pool (after_claim (length subtasks) w1))
                  (claimed (length subtasks) w1) subtasks 0
                  (after_claim (length subtasks) w1))
        as (reports & _ & _ & _ & Hsame & _); [apply claimed_NoDup| |exact Hsame].
      intros a Ha. split; [|reflexivity].
      destruct (after_claim_lookup _ _ _ Ha) as (wk & _ & _ & ->). eauto. }
  split; [|split; [exact Hflags|]].
  - intros a Ha. destruct (claimed_idle _ _ _ Ha) as (wk & Hl & Hb).
    apply (f_equal (fun l => l !! a)) in Hflags. unfold busy_flags in Hflags.
    rewrite !list_lookup_fmap in Hflags. rewrite Hflags, Hl. cbn. now rewrite Hb.
  - now apply idle_count_flags.
Qed.

(** The reports of the tasks of an admitted batch, by task index. *)
Lemma batch_reports subtasks w1 :
  admitted subtasks w1 ->
  let ran := run_all (batch_tasks (claimed (length subtasks) w1) subtasks)
                     (after_claim (length subtasks) w1) in
  exists reports,
    task_outcomes subtasks w1 = gathered <$> reports.*1
    /\ trace ran.2 = (trace w1 ++ concat reports.*2)%list
    /\ (forall i st, subtasks !! i = Some st ->
          exists a wk,
            claimed (length subtasks) w1 !! i = Some a
            /\ worker_pool w1 !! a = Some wk
            /\ reports !! i = Some (task_outcome wk st i, task_events wk st)).
Proof.
  intros (Hne & Hcap & Hidle). cbn zeta.
  destruct (run_all_batch (worker_pool (after_claim (length subtasks) w1))
              (claimed (length subtasks) w1) subtasks 0
              (after_claim (length subtasks) w1))
    as (reports & Hrep & Hrs & Htr & _ & _); [apply claimed_NoDup| |].
  { intros a Ha. split; [|reflexivity].
    destruct (after_claim_lookup _ _ _ Ha) as (wk & _ & _ & ->). eauto. }
  exists reports. split; [unfold task_outcomes, batch_tasks; now f_equal|].
  split; [exact Htr|].
  intros i st Hst.
  destruct (lookup_lt_is_Some_2 (claimed (length subtasks) w1) i) as [a Ha].
  { rewrite claimed_length. apply lookup_lt_Some in Hst. lia. }
  destruct (after_claim_lookup _ _ a (list_elem_of_lookup_2 _ _ _ Ha))
    as (wk & Hwk & _ & Hwk').
  exists a, wk. split; [exact Ha|]. split; [exact Hwk|].
  assert (enumerate_zip 0 (claimed (length subtasks) w1) subtasks !! i
          = Some (i, (a, st))) as Ht
    by (apply enumerate_zip_lookup; now exists a, st).
  destruct (Forall2_lookup_l _ _ _ _ _ Hrep Ht) as (rep & Hi & wk2 & Hl2 & ->).
  cbn [fst snd] in Hl2. rewrite Hwk' in Hl2. injection Hl2 as <-. exact Hi.
Qed.

Lemma batch_reports_length subtasks w1 (reports : list (Result PyVal * list Event)) :
  admitted subtasks w1 ->
  task_outcomes subtasks w1 = gathered <$> reports.*1 ->
  length reports = length subtasks.
Proof.
  intros Hadm Hout. apply (f_equal length) in Hout.
  now rewrite (batch_outcomes_length _ _ Hadm), !length_fmap in Hout.
Qed.

(** The three ways in which a task ends: it returns the success record of
    the first attempt that returned; or each of its five attempts failed,
    and it raises the error that reports the [Exception] of the last one; or
    an attempt raised something that is not an [Exception], which the task
    raises in turn. *)
Lemma task_outcome_cases wk (q : string) (idx : nat) :
  let k := stop_index (agent wk) q in
  (exists text,
      attempt_outcome (agent wk) q k = Ok text
      /\ task_outcome wk q idx
         = Ok (VDict (success_record idx q text (agent_id wk) (elapsed_time idx k))))
  \/ (exists exc,
        task_fails (agent wk) q
        /\ k = 4%nat
        /\ attempt_outcome (agent wk) q 4 = Raise exc
        /\ isinstance_Exception exc = true
        /\ task_outcome wk q idx
           = Raise (RuntimeError
                      (error_message (agent_id wk) (elapsed_time idx 4) idx q exc)))
  \/ (exists exc,
        attempt_outcome (agent wk) q k = Raise exc
        /\ isinstance_Exception exc = false
        /\ task_outcome wk q idx = Raise exc).
Proof.
  cbn zeta. unfold task_outcome, final_outcome.
  destruct (stop_index_stops (agent wk) q) as (Hle & Hbefore & Hlast).
  destruct (attempt_outcome (agent wk) q (stop_index (agent wk) q))
    as [text|exc] eqn:Hout; [left; now exists text|].
  right. cbn [failed_attempt] in Hlast.
  destruct (isinstance_Exception exc) eqn:Hexc; [left | right; now exists exc].
  destruct Hlast as [Hlast|Hlast]; [discriminate|].
  unfold max_retrys in *. cbn [Nat.sub] in Hlast.
  exists exc. rewrite Hlast in *.
  split; [|repeat split; assumption].
  intros j Hj. unfold max_retrys in Hj.
  destruct (decide (j < 4)%nat) as [Hlt|Hge]; [now apply Hbefore|].
  replace j with 4%nat by lia. rewrite Hout. exact Hexc.
Qed.

(** A task whose five attempts all fail raises the error that reports its
    index, its text and the exception of the last attempt. *)
Lemma task_outcome_exhausted wk (q : string) (idx : nat) :
  task_fails (agent wk) q ->
  stop_index (agent wk) q = 4%nat
  /\ exists exc,
      attempt_outcome (agent wk) q 4 = Raise exc
      /\ isinstance_Exception exc = true
      /\ task_outcome wk q idx
         = Raise (RuntimeError
                    (error_message (agent_id wk) (elapsed_time idx 4) idx q exc)).
Proof.
  intros Hfail.
  assert (stop_index (agent wk) q = 4%nat) as Hstop
    by (apply stops_at_fifth; intros j Hj; apply Hfail; unfold max_retrys; lia).
  split; [exact Hstop|].
  pose proof (Hfail 4%nat ltac:(unfold max_retrys; lia)) as H4.
  destruct (attempt_outcome (agent wk) q 4) as [text|exc] eqn:Hout;
    [discriminate|].
  cbn [failed_attempt] in H4. exists exc.
  split; [reflexivity|]. split; [exact H4|].
  unfold task_outcome, final_outcome. now rewrite Hstop, Hout, H4.
Qed.

(** A task one of whose five attempts returns, after attempts that failed,
    returns a success record with its index and its text. *)
Lemma task_outcome_success wk (q : string) (idx : nat) :
  task_succeeds (agent wk) q ->
  exists k text,
    (k < 5)%nat
    /\ attempt_outcome (agent wk) q k = Ok text
    /\ task_outcome wk q idx
       = Ok (VDict (success_record idx q text (agent_id wk) (elapsed_time idx k))).
Proof.
  intros (j & Hj & Hbefore & Hok). unfold max_retrys in Hj.
  assert (j = stop_index (agent wk) q) as Hstop.
  { apply stops_at_stop_index; [unfold max_retrys; lia|].
    split; [exact Hbefore|]. left.
    now destruct (attempt_outcome (agent wk) q j). }
  destruct (attempt_outcome (agent wk) q j) as [text|exc] eqn:Hout;
    [|discriminate].
  exists j, text. split; [exact Hj|]. split; [exact Hout|].
  unfold task_outcome, final_outcome. now rewrite <- Hstop, Hout.
Qed.

Lemma elem_of_successes_of (v : PyVal) (outcomes : list PyVal) :
  v ∈ outcomes -> as_Exception v = None -> v ∈ successes_of outcomes.
Proof.
  intros Hin Hv. apply list_elem_of_omap. exists v. now rewrite Hv.
Qed.

Lemma elem_of_failures_of (v : PyVal) (exc : PyExc) (outcomes : list PyVal) :
  v ∈ outcomes -> as_Exception v = Some exc ->
  failure_record exc ∈ failures_of outcomes.
Proof.
  intros Hin Hv. apply list_elem_of_omap. exists v. now rewrite Hv.
Qed.

(** An admitted batch that runs to its end returns the sorted outcomes of
    its tasks. *)
Lemma batch_returns_sorted_outcomes subtasks w w1 :
  ensure_initialized w = (Ok tt, w1) ->
  admitted subtasks w1 ->
  cancel_requested w1 = false ->
  exists batch w2,
    execute_subtasks subtasks w = (Ok batch, w2)
    /\ results batch = successes_of (task_outcomes subtasks w1)
    /\ failed batch = failures_of (task_outcomes subtasks w1).
Proof.
  intros Hinit Hadm Hrun.
  rewrite (execute_subtasks_admitted _ _ _ Hinit Hadm). cbn zeta. rewrite Hrun.
  eexists _, _. now split.
Qed.

(** C5: an admitted batch that runs to its end returns a result, whatever
    its tasks do: it never raises.  Every task has an outcome that depends on
    its own worker and query only.  The record of a task that returned is
    among the successes.  A task raises an [Exception] only when its five
    attempts are exhausted, and a task whose attempts are exhausted has its
    failure record among the failures.  (A task ended by an exception that
    is not an [Exception] does not fail the batch either: the exception
    object is listed among the results.) *)
Theorem task_failures_contained subtasks w w1 :
  ensure_initialized w = (Ok tt, w1) ->
  admitted subtasks w1 ->
  cancel_requested w1 = false ->
  exists batch w2,
    execute_subtasks subtasks w = (Ok batch, w2)
    /\ results batch = successes_of (task_outcomes subtasks w1)
    /\ failed batch = failures_of (task_outcomes subtasks w1)
    /\ (forall i st, subtasks !! i = Some st ->
          exists a wk,
            claimed (length subtasks) w1 !! i = Some a
            /\ worker_pool w1 !! a = Some wk
            /\ task_outcomes subtasks w1 !! i
               = Some (gathered (task_outcome wk st i))
            /\ (task_fails (agent wk) st ->
                exists e, task_outcome wk st i = Raise e
                          /\ failure_record e ∈ failed batch)
            /\ match task_outcome wk st i with
               | Ok v => v ∈ results batch
               | Raise e =>
                   if isinstance_Exception e then
                     failure_record e ∈ failed batch
                     /\ task_fails (agent wk) st
                   else
                     gathered (Raise e) ∈ results batch
               end).
Proof.
  intros Hinit Hadm Hrun.
  rewrite (execute_subtasks_admitted _ _ _ Hinit Hadm). cbn zeta. rewrite Hrun.
  eexists _, _. split; [reflexivity|]. cbn [results failed].
  fold (task_outcomes subtasks w1). do 2 (split; [reflexivity|]).
  destruct (batch_reports _ _ Hadm) as (reports & Hout & _ & Hrep).
  intros i st Hst. destruct (Hrep i st Hst) as (a & wk & Ha & Hwk & Hi).
  exists a, wk. do 2 (split; [assumption|]).
  assert (task_outcomes subtasks w1 !! i = Some (gathered (task_outcome wk st i)))
    as Ho by now rewrite Hout, !list_lookup_fmap, Hi.
  split; [exact Ho|]. apply list_elem_of_lookup_2 in Ho.
  assert (forall e, task_outcome wk st i = Raise e ->
            isinstance_Exception e = true ->
            failure_record e ∈ failures_of (task_outcomes subtasks w1)) as Hfiled.
  { intros e He Hexc. apply (elem_of_failures_of _ _ _ Ho).
    rewrite He. now apply gathered_Exception. }
  split.
  - intros Hfail.
    destruct (task_outcome_exhausted wk st i Hfail) as (_ & exc & _ & _ & He).
    eexists. split; [exact He|]. now apply Hfiled.
  - destruct (task_outcome_cases wk st i)
      as [(text & _ & Hr)|[(exc & Hfail & _ & _ & _ & Hr)|(exc & _ & Hexc & Hr)]];
      rewrite Hr in *.
    + now apply elem_of_successes_of.
    + cbn [isinstance_Exception RuntimeError exc_base].
      split; [now apply Hfiled | exact Hfail].
    + rewrite Hexc. apply (elem_of_successes_of _ _ Ho).
      destruct (gathered_other _ Hexc) as (exc' & -> & Hexc' & _).
      cbn. now rewrite Hexc'.
Qed.
(** *** Outcome records *)

(** C7, as amended: in a batch of three tasks of which the second fails for
    good (each of its five attempts raises an [Exception]) and the other two
    succeed, the successes are exactly the records of the tasks 0 and 2, in
    this order, each with its index in the field [subtask_index]; the
    failures are exactly one record, whose only field [error] holds the text
    that names index 1 and the text of the second task.  A success record
    carries the index of its task; a failure record carries it inside its
    error text only. *)
Theorem index_fidelity (t0 t1 t2 : string) w w1 (a0 a1 a2 : nat) wk0 wk1 wk2 :
  ensure_initialized w = (Ok tt, w1) ->
  admitted [t0; t1; t2] w1 ->
  cancel_requested w1 = false ->
  claimed 3 w1 = [a0; a1; a2] ->
  worker_pool w1 !! a0 = Some wk0 ->
  worker_pool w1 !! a1 = Some wk1 ->
  worker_pool w1 !! a2 = Some wk2 ->
  task_succeeds (agent wk0) t0 ->
  task_fails (agent wk1) t1 ->
  task_succeeds (agent wk2) t2 ->
  exists batch w2 rec0 rec2 exc,
    execute_subtasks [t0; t1; t2] w = (Ok batch, w2)
    /\ results batch = [VDict rec0; VDict rec2]
    /\ dict_get "subtask_index" rec0 = Some (VInt 0)
    /\ dict_get "subtask" rec0 = Some (VStr t0)
    /\ dict_get "subtask_index" rec2 = Some (VInt 2)
    /\ dict_get "subtask" rec2 = Some (VStr t2)
    /\ failed batch
       = [[("error",
            VStr (error_message (agent_id wk1) (elapsed_time 1 4) 1 t1 exc))]]
    /\ attempt_outcome (agent wk1) t1 4 = Raise exc
    /\ isinstance_Exception exc = true.
Proof.
  intros Hinit Hadm Hrun Hcl Hwk0 Hwk1 Hwk2 Hok0 Hfail1 Hok2.
  destruct (batch_returns_sorted_outcomes _ _ _ Hinit Hadm Hrun)
    as (batch & w2 & Hexec & Hres & Hfailed).
  destruct (batch_reports _ _ Hadm) as (reports & Hout & _ & Hrep).
  cbn [length] in Hrep. rewrite Hcl in Hrep.
  destruct (Hrep 0%nat t0 eq_refl) as (? & wk0' & [= <-] & Hl0 & Hr0).
  destruct (Hrep 1%nat t1 eq_refl) as (? & wk1' & [= <-] & Hl1 & Hr1).
  destruct (Hrep 2%nat t2 eq_refl) as (? & wk2' & [= <-] & Hl2 & Hr2).
  rewrite Hwk0 in Hl0. rewrite Hwk1 in Hl1. rewrite Hwk2 in Hl2.
  injection Hl0 as <-. injection Hl1 as <-. injection Hl2 as <-.
  pose proof (batch_reports_length _ _ _ Hadm Hout) as Hlen.
  destruct reports as [|r0 [|r1 [|r2 [|]]]]; try discriminate.
  cbn in Hr0, Hr1, Hr2.
  injection Hr0 as ->. injection Hr1 as ->. injection Hr2 as ->.
  destruct (task_outcome_success wk0 t0 0 Hok0) as (k0 & text0 & _ & _ & Ho0).
  destruct (task_outcome_success wk2 t2 2 Hok2) as (k2 & text2 & _ & _ & Ho2).
  destruct (task_outcome_exhausted wk1 t1 1 Hfail1) as (_ & exc & Hlast & Hexc & Ho1).
  exists batch, w2, (success_record 0 t0 text0 (agent_id wk0) (elapsed_time 0 k0)),
    (success_record 2 t2 text2 (agent_id wk2) (elapsed_time 2 k2)), exc.
  split; [exact Hexec|].
  rewrite Hres, Hfailed, Hout. cbn [fmap list_fmap fst].
  rewrite Ho0, Ho1, Ho2.
  repeat split; assumption.
Qed.

(** *** Calls of the executor *)

Lemma elem_of_concat {A} (x : A) (ls : list (list A)) :
  x ∈ concat ls -> exists l, x ∈ l /\ l ∈ ls.
Proof.
  induction ls as [|l ls IH]; cbn; intros Hin.
  - now apply elem_of_nil in Hin.
  - apply elem_of_app in Hin as [Hin|Hin].
    + exists l. split; [exact Hin | apply list_elem_of_here].
    + destruct (IH Hin) as (l' & Hx & Hl').
      exists l'. split; [exact Hx | now apply list_elem_of_further].
Qed.

Lemma retry_events_run (id id' q q' : string) (k : nat) :
  EvRun id q ∈ retry_events id' q' k -> id = id' /\ q = q'.
Proof.
  unfold retry_events. intros Hin.
  apply elem_of_cons in Hin as [[= -> ->]|Hin]; [now split|].
  induction k as [|k IH]; cbn in Hin.
  - now apply elem_of_nil in Hin.
  - apply elem_of_cons in Hin as [Hin|Hin]; [discriminate|].
    apply elem_of_cons in Hin as [[= -> ->]|Hin]; [now split|].
    now apply IH.
Qed.

(** What [WorkerAgentWrapper.execute] does on a worker of the pool. *)
Lemma execute_effect (self : nat) (q : string) w wk :
  worker_pool w !! self = Some wk ->
  execute self q w
  = ((run (agent wk) q).2,
     mkWorld (<[self := mkWorker (run (agent wk) q).1 (agent_id wk)
                                 (created_at wk) (wall_clock w) false
                                 (task_count wk + 1)]> (worker_pool w))
             (pool_config w) (_pool_initialized w) (wall_clock w + 1)
             (cancel_requested w) (trace w ++ [EvRun (agent_id wk) q])).
Proof.
  intros Hl. unfold execute.
  unfold bind at 1. unfold on_worker at 1, modify at 1.
  unfold bind at 1. unfold on_worker at 1, modify at 1.
  unfold bind at 1. unfold datetime_now at 1.
  unfold bind at 1. unfold on_worker at 1, modify at 1.
  unfold try_finally. unfold bind at 1.
  erewrite agent_run_effect.
  2:{ cbn. rewrite !list_lookup_alter_eq, Hl. reflexivity. }
  assert (forall pool' : list (WorkerAgentWrapper E),
            pool' = worker_pool w ->
            alter (set_is_busy false) self
              (alter (set_agent (run (agent wk) q).1) self
                 (alter (set_last_used (wall_clock w)) self
                    (alter (fun wk' => set_task_count (task_count wk' + 1) wk') self
                       (alter (set_is_busy true) self pool'))))
            = <[self := mkWorker (run (agent wk) q).1 (agent_id wk) (created_at wk)
                                 (wall_clock w) false (task_count wk + 1)]> pool')
    as Hpool.
  { intros pool' ->. rewrite !list_alter_alter_eq, list_insert_alter.
    apply list_alter_ext; [|reflexivity].
    intros wk' Hl'. rewrite Hl in Hl'. now injection Hl' as <-. }
  unfold ret, task_effect, with_pool. cbn.
  destruct ((run (agent wk) q).2); cbn; f_equal; unfold with_pool; cbn;
    f_equal; exact (Hpool _ eq_refl).
Qed.

(** C8, as amended: [WorkerAgentWrapper.execute] counts the task, stamps
    [last_used], calls the executor that the handle owns and passes its
    result or its exception on.  The dispatcher does not go through it:
    [execute_on_agent] calls the executor of the claimed handle itself, and
    every call of an executor that a batch makes is made on the executor of a
    worker claimed for the batch, with the text of the task assigned to that
    worker. *)
Theorem executor_called_on_claimed_handle subtasks w w1 :
  ensure_initialized w = (Ok tt, w1) ->
  admitted subtasks w1 ->
  (forall r w2,
      execute_subtasks subtasks w = (r, w2) ->
      exists evs,
        trace w2 = (trace w1 ++ evs)%list
        /\ forall id q,
            EvRun id q ∈ evs ->
            exists i a wk,
              subtasks !! i = Some q
              /\ claimed (length subtasks) w1 !! i = Some a
              /\ worker_pool w1 !! a = Some wk
              /\ id = agent_id wk)
  /\ (forall self q w0 wk,
        worker_pool w0 !! self = Some wk ->
        (execute self q w0).1 = (run (agent wk) q).2
        /\ (worker_pool (execute self q w0).2 !! self
            = Some (mkWorker (run (agent wk) q).1 (agent_id wk) (created_at wk)
                             (wall_clock w0) false (task_count wk + 1)))).
Proof.
  intros Hinit Hadm. split.
  - intros r w2 Hexec.
    rewrite (execute_subtasks_admitted _ _ _ Hinit Hadm) in Hexec.
    cbn zeta in Hexec. destruct (cancel_requested w1).
    + injection Hexec as _ <-. exists []. cbn. rewrite app_nil_r.
      split; [reflexivity|]. intros id q Hin. now apply elem_of_nil in Hin.
    + injection Hexec as _ <-.
      destruct (batch_reports _ _ Hadm) as (reports & Hout & Htr & Hrep).
      cbn zeta in Htr. exists (concat reports.*2).
      split; [exact Htr|]. intros id q Hin.
      apply elem_of_concat in Hin as (evs & Hin & Hevs).
      apply list_elem_of_fmap in Hevs as (rep & -> & Hrep').
      apply list_elem_of_lookup_1 in Hrep' as (i & Hi).
      pose proof (batch_reports_length _ _ _ Hadm Hout) as Hlen.
      destruct (lookup_lt_is_Some_2 subtasks i) as [st Hst].
      { rewrite <- Hlen. now apply lookup_lt_Some in Hi. }
      destruct (Hrep i st Hst) as (a & wk & Ha & Hwk & Hi').
      rewrite Hi in Hi'. injection Hi' as ->. cbn [snd] in Hin.
      apply retry_events_run in Hin as [-> ->].
      now exists i, a, wk.
  - intros self q w0 wk Hl. rewrite (execute_effect _ _ _ _ Hl). cbn.
    split; [reflexivity|].
    apply list_lookup_insert_eq. now apply lookup_lt_Some in Hl.
Qed.

(** *** The first initialization *)

Lemma with_events_nil w : with_events [] w = w.
Proof. unfold with_events. rewrite app_nil_r. now destruct w. Qed.

Lemma with_events_app (evs1 evs2 : list Event) w :
  with_events evs2 (with_events evs1 w) = with_events (evs1 ++ evs2) w.
Proof. unfold with_events. cbn. now rewrite <- app_assoc. Qed.

Lemma comprehension_create (model : Model) (kwargs : AgentKwargs)
    (indices : list nat) w :
  comprehension indices (create_agent model kwargs) w
  = (Ok ((fun i => (agent_name i, SearchAgent (agent_name i) model kwargs))
           <$> indices),
     with_events (EvCreate <$> (agent_name <$> indices)) w).
Proof.
  revert w. induction indices as [|i indices IH]; intros w.
  - cbn. unfold ret. now rewrite with_events_nil.
  - cbn [comprehension]. unfold bind at 1. unfold create_agent at 1.
    unfold bind at 1. cbn [emit modify]. unfold ret at 1.
    unfold bind at 1. rewrite IH. unfold ret.
    change (mkWorld _ _ _ _ _ (trace w ++ [EvCreate (agent_name i)]))
      with (with_events [EvCreate (agent_name i)] w).
    now rewrite with_events_app.
Qed.

Lemma gather_start (agents : list (string * E)) w :
  gather (start_agent <$> agents) w
  = (start_all agents, with_events (EvStart <$> agents.*1) w).
Proof.
  revert w. induction agents as [|p agents IH]; intros w.
  - cbn. unfold ret. now rewrite with_events_nil.
  - cbn [fmap list_fmap gather start_all]. unfold start_agent at 1.
    unfold bind at 1. cbn [emit modify].
    change (mkWorld _ _ _ _ _ (trace w ++ [EvStart p.1]))
      with (with_events [EvStart p.1] w).
    unfold bind at 1. unfold lift, ret.
    destruct (start p.2) as [a|e]; rewrite IH, with_events_app;
      now destruct (start_all agents).
Qed.

Lemma wrap_agents (started : list (string * E)) w :
  for_each started (fun p =>
    wrapper <- new_WorkerAgentWrapper p.2 p.1 ;;
    modify (with_pool (fun pool => (pool ++ [wrapper])%list))) w
  = (Ok tt,
     mkWorld (worker_pool w ++ wrap (wall_clock w) started) (pool_config w)
             (_pool_initialized w) (wall_clock w + 2 * len started)
             (cancel_requested w) (trace w)).
Proof.
  revert w. induction started as [|p started IH]; intros w.
  - cbn. unfold ret, len. cbn. rewrite app_nil_r, Z.add_0_r. now destruct w.
  - cbn [for_each]. unfold bind at 1. cbn. rewrite IH. cbn.
    rewrite <- app_assoc. cbn.
    replace (wall_clock w + 1 + 1) with (wall_clock w + 2) by lia.
    do 2 f_equal. unfold len. cbn [length]. lia.
Qed.

(** What [initialize_pool] does when the pool is not initialized. *)
Lemma initialize_pool_fresh (config : option (PoolConfig AgentKwargs))
    (model : option Model) w :
  _pool_initialized w = false ->
  let cfg := default default_config config in
  let w0 := after_starts cfg (default default_model model) w in
  initialize_pool config model w
  = match start_all (new_agents cfg (default default_model model)) with
    | Ok started =>
        (Ok tt,
         mkWorld (worker_pool w ++ wrap (wall_clock w) started) cfg true
                 (wall_clock w + 2 * len started) (cancel_requested w)
                 (trace w0))
    | Raise e => (Raise e, w0)
    end.
Proof.
  intros Hi. cbn zeta. unfold initialize_pool.
  unfold bind at 1. unfold gets at 1. rewrite Hi.
  unfold bind at 1. cbn [modify].
  unfold bind at 1. rewrite comprehension_create.
  fold (new_agents (default default_config config) (default default_model model)).
  unfold bind at 1. rewrite gather_start, with_events_app.
  assert (forall evs, with_events
            ((EvCreate <$> (agent_name <$> range (default MAX_POOL_SIZE
                (max_pool_size (default default_config config))))) ++ evs)
            (with_config (default default_config config) w)
          = with_events
              ((EvCreate <$> (new_agents (default default_config config)
                                (default default_model model)).*1) ++ evs)
              (with_config (default default_config config) w)) as Hnames.
  { intros evs. unfold new_agents. now rewrite <- !list_fmap_compose. }
  rewrite Hnames. fold (after_starts (default default_config config)
                          (default default_model model) w).
  destruct (start_all _) as [started|e]; [|reflexivity].
  unfold bind at 1. rewrite wrap_agents. reflexivity.
Qed.

Lemma start_all_ok (agents : list (string * E)) :
  (forall p, p ∈ agents -> is_ok (start p.2) = true) ->
  exists started,
    start_all agents = Ok started
    /\ Forall2 (fun p s => s.1 = p.1 /\ start p.2 = Ok s.2) agents started.
Proof.
  induction agents as [|p agents IH]; intros Hall.
  - exists []. split; [reflexivity | constructor].
  - destruct IH as (started & Hs & Hf2).
    { intros q Hq. apply Hall. now apply list_elem_of_further. }
    pose proof (Hall p (list_elem_of_here _ _)) as Hp.
    cbn [start_all]. rewrite Hs. destruct (start p.2) as [a|e] eqn:Ha;
      [|discriminate].
    exists ((p.1, a) :: started). split; [reflexivity|].
    constructor; [now split | exact Hf2].
Qed.

Lemma start_all_raise (agents : list (string * E)) (p : string * E) :
  p ∈ agents -> is_ok (start p.2) = false ->
  exists q e, q ∈ agents /\ start q.2 = Raise e /\ start_all agents = Raise e.
Proof.
  induction agents as [|p0 agents IH]; intros Hin Hp.
  - now apply elem_of_nil in Hin.
  - cbn [start_all]. destruct (start p0.2) as [a|e] eqn:Ha.
    + apply elem_of_cons in Hin as [->|Hin]; [rewrite Ha in Hp; discriminate|].
      destruct (IH Hin Hp) as (q & e & Hq & Hqe & ->).
      exists q, e. split; [now apply list_elem_of_further | now split].
    + exists p0, e. split; [apply list_elem_of_here | now split].
Qed.

Lemma wrap_lookup (started : list (string * E)) (i : nat) wk :
  forall clock,
    wrap clock started !! i = Some wk ->
    exists s, started !! i = Some s
              /\ wk = mkWorker s.2 s.1 (clock + 2 * Z.of_nat i)
                               (clock + 2 * Z.of_nat i + 1) false 0.
Proof.
  revert i. induction started as [|p started IH]; intros i clock Hl;
    [discriminate|].
  destruct i as [|i]; cbn in Hl.
  - injection Hl as <-. exists p. split; [reflexivity|]. f_equal; lia.
  - destruct (IH _ _ Hl) as (s & Hs & ->). exists s. split; [exact Hs|].
    f_equal; lia.
Qed.

Lemma wrap_length (started : list (string * E)) (clock : Z) :
  length (wrap clock started) = length started.
Proof.
  revert clock. induction started as [|p started IH]; intros clock;
    [reflexivity|]. cbn. now rewrite IH.
Qed.

Lemma new_agents_lookup (config : PoolConfig AgentKwargs) (model : Model)
    (i : nat) (p : string * E) :
  new_agents config model !! i = Some p ->
  p = (agent_name i,
       SearchAgent (agent_name i) model (default no_kwargs (agent_config config))).
Proof.
  unfold new_agents, range. rewrite list_lookup_fmap.
  destruct (seq 0 _ !! i) as [j|] eqn:Hj; [|discriminate].
  apply lookup_seq in Hj as [-> _]. now intros [= <-].
Qed.

Lemma new_agents_length (config : PoolConfig AgentKwargs) (model : Model) :
  length (new_agents config model)
  = Z.to_nat (default MAX_POOL_SIZE (max_pool_size config)).
Proof. unfold new_agents, range. now rewrite length_fmap, length_seq. Qed.

(** X1: the first initialization, when every agent starts, adds one
    worker per unit of the configured capacity (none for a capacity that is
    not positive), named [search_agent_0], [search_agent_1], ... in pool
    order, each idle, with a task count of zero and holding the started
    agent of its name; it records the configuration and marks the pool
    initialized. *)
Theorem initialize_pool_creates_workers
    (config : option (PoolConfig AgentKwargs)) (model : option Model) w :
  let cfg := default default_config config in
  let mdl := default default_model model in
  _pool_initialized w = false ->
  (forall p, p ∈ new_agents cfg mdl -> is_ok (start p.2) = true) ->
  exists w' new,
    initialize_pool config model w = (Ok tt, w')
    /\ _pool_initialized w' = true
    /\ pool_config w' = cfg
    /\ worker_pool w' = (worker_pool w ++ new)%list
    /\ length new = Z.to_nat (default MAX_POOL_SIZE (max_pool_size cfg))
    /\ forall i wk,
        new !! i = Some wk ->
        agent_id wk = agent_name i
        /\ start (SearchAgent (agent_name i) mdl
                              (default no_kwargs (agent_config cfg)))
           = Ok (agent wk)
        /\ is_busy wk = false
        /\ task_count wk = 0.
Proof.
  intros cfg mdl Hi Hall.
  destruct (start_all_ok _ Hall) as (started & Hs & Hf2).
  rewrite (initialize_pool_fresh _ _ _ Hi). cbn zeta. fold cfg mdl. rewrite Hs.
  eexists _, (wrap (wall_clock w) started).
  split; [reflexivity|]. do 3 (split; [reflexivity|]).
  split.
  - rewrite wrap_length, <- (Forall2_length _ _ _ Hf2). apply new_agents_length.
  - intros i wk Hwk. destruct (wrap_lookup _ _ _ _ Hwk) as (s & Hsi & ->).
    destruct (Forall2_lookup_r _ _ _ _ _ Hf2 Hsi) as (p & Hp & Hname & Hstart).
    apply new_agents_lookup in Hp. subst p. cbn in *.
    now rewrite Hname, Hstart.
Qed.

(** X2: when an agent fails to start, the first initialization raises the
    exception of an agent that failed; the pool stays uninitialized and no
    worker is added, so that a later call tries again.  The configuration
    has been recorded all the same, and every agent has been constructed and
    started. *)
Theorem initialize_pool_start_failure
    (config : option (PoolConfig AgentKwargs)) (model : option Model) w
    (p : string * E) :
  let cfg := default default_config config in
  let mdl := default default_model model in
  _pool_initialized w = false ->
  p ∈ new_agents cfg mdl ->
  is_ok (start p.2) = false ->
  exists q e w',
    q ∈ new_agents cfg mdl
    /\ start q.2 = Raise e
    /\ initialize_pool config model w = (Raise e, w')
    /\ _pool_initialized w' = false
    /\ worker_pool w' = worker_pool w
    /\ pool_config w' = cfg
    /\ trace w' = (trace w ++ (EvCreate <$> (new_agents cfg mdl).*1)
                           ++ (EvStart <$> (new_agents cfg mdl).*1))%list.
Proof.
  intros cfg mdl Hi Hin Hfail.
  destruct (start_all_raise _ _ Hin Hfail) as (q & e & Hq & Hqe & Hs).
  exists q, e. eexists. split; [exact Hq|]. split; [exact Hqe|].
  rewrite (initialize_pool_fresh _ _ _ Hi). cbn zeta. fold cfg mdl. rewrite Hs.
  split; [reflexivity|]. cbn. now rewrite Hi.
Qed.

(** *** A pool without capacity *)

Lemma ensure_initialized_flag w w1 :
  ensure_initialized w = (Ok tt, w1) -> _pool_initialized w1 = true.
Proof.
  unfold ensure_initialized. unfold bind at 1. unfold gets.
  destruct (_pool_initialized w) eqn:Hi; cbn [negb].
  - now intros [= <-].
  - intros Hinit. now apply initialize_pool_ok in Hinit.
Qed.

(** X3: a pool whose configured capacity is zero or negative accepts no
    batch at all: every call of [execute_subtasks] raises a [ValueError] and
    leaves the world as it was. *)
Theorem no_capacity_rejects_every_batch subtasks w :
  _pool_initialized w = true ->
  capacity w <= 0 ->
  exists msg, execute_subtasks subtasks w = (Raise (ValueError msg), w).
Proof.
  intros Hi Hcap. pose proof (ensure_initialized_initialized _ Hi) as Hinit.
  after_initialization Hinit.
  destruct subtasks as [|st subtasks]; [now eexists|].
  cbn [orb]. rewrite len_not_below_1 by (cbn; lia).
  unfold bind at 1. unfold gets at 1. fold (capacity w).
  replace (len (st :: subtasks) >? capacity w) with true.
  - now eexists.
  - symmetry. apply Z.gtb_gt. unfold len. cbn [length]. lia.
Qed.

(** *** The world after a batch *)

Lemma batch_world subtasks w w1 (r : Result BatchResult) w2 :
  batch_ends subtasks w w1 r w2 ->
  handle <$> worker_pool w2 = handle <$> worker_pool w1
  /\ pool_config w2 = pool_config w1
  /\ _pool_initialized w2 = _pool_initialized w1
  /\ wall_clock w2 = wall_clock w1
  /\ cancel_requested w2 = cancel_requested w1
  /\ (forall j, j ∉ claimed (length subtasks) w1 ->
                worker_pool w2 !! j = worker_pool w1 !! j).
Proof.
  intros (Hinit & Hadm & Hexec).
  rewrite (execute_subtasks_admitted _ _ _ Hinit Hadm) in Hexec.
  cbn zeta in Hexec.
  assert (exists w', w2 = with_pool (set_busy_all false (claimed (length subtasks) w1)) w'
                     /\ same_handles (after_claim (length subtasks) w1) w'
                     /\ forall j, j ∉ claimed (length subtasks) w1 ->
                          worker_pool w' !! j
                          = worker_pool (after_claim (length subtasks) w1) !! j)
    as (w' & -> & Hsame & Hother).
  { destruct (cancel_requested w1); injection Hexec as _ <-.
    - eexists. split; [reflexivity|]. split; [apply same_handles_refl | auto].
    - destruct (run_all_batch (worker_pool (after_claim (length subtasks) w1))
                  (claimed (length subtasks) w1) subtasks 0
                  (after_claim (length subtasks) w1))
        as (reports & _ & _ & _ & Hsame & Hother); [apply claimed_NoDup| |].
      + intros a Ha. split; [|reflexivity].
        destruct (after_claim_lookup _ _ _ Ha) as (wk & _ & _ & ->). eauto.
      + eexists. split; [reflexivity|]. split; [exact Hsame | exact Hother]. }
  split; [now apply release_restores|].
  destruct Hsame as (_ & Hc & Hi & Hk & Hr). cbn.
  do 4 (split; [assumption|]).
  intros j Hj. rewrite set_busy_all_lookup, bool_decide_eq_false_2 by exact Hj.
  rewrite (Hother j Hj). unfold after_claim. cbn.
  rewrite set_busy_all_lookup, bool_decide_eq_false_2 by exact Hj.
  now destruct (worker_pool w1 !! j).
Qed.

(** X4: a batch touches the workers it claims and no other: a worker that
    it did not claim, busy for another batch or idle, is after the batch
    exactly what it was, the state of its executor included, however the
    batch ends.  Of the workers it claims it changes the executor only:
    names, timestamps and task counts of all handles are as before. *)
Theorem unclaimed_workers_untouched subtasks w w1 (r : Result BatchResult) w2 :
  batch_ends subtasks w w1 r w2 ->
  (forall j, j ∉ claimed (length subtasks) w1 ->
             worker_pool w2 !! j = worker_pool w1 !! j)
  /\ handle <$> worker_pool w2 = handle <$> worker_pool w1
  /\ length (worker_pool w2) = length (worker_pool w1).
Proof.
  intros Hends. destruct (batch_world _ _ _ _ _ Hends) as (Hh & _ & _ & _ & _ & Ho).
  split; [exact Ho|]. split; [exact Hh|].
  apply (f_equal length) in Hh. now rewrite !length_fmap in Hh.
Qed.

(** X8: batches compose.  After a batch has ended, with a result or with
    an exception, the pool is still initialized with the same capacity and
    as many idle workers, so that exactly the batches that would have been
    admitted before it are admitted after it. *)
Theorem batches_compose subtasks w w1 (r : Result BatchResult) w2 :
  batch_ends subtasks w w1 r w2 ->
  ensure_initialized w2 = (Ok tt, w2)
  /\ capacity w2 = capacity w1
  /\ idle_count (worker_pool w2) = idle_count (worker_pool w1)
  /\ forall subtasks', admitted subtasks' w1 <-> admitted subtasks' w2.
Proof.
  intros Hends.
  destruct (batch_world _ _ _ _ _ Hends) as (Hh & Hc & Hi & _ & _ & _).
  destruct Hends as (Hinit & _ & _).
  apply ensure_initialized_flag in Hinit.
  assert (idle_count (worker_pool w2) = idle_count (worker_pool w1)) as Hidle
    by now apply idle_count_flags, busy_flags_handles.
  assert (capacity w2 = capacity w1) as Hcap by (unfold capacity; now rewrite Hc).
  split; [apply ensure_initialized_initialized; congruence|].
  split; [exact Hcap|]. split; [exact Hidle|].
  intros subtasks'. unfold admitted. now rewrite Hcap, Hidle.
Qed.

(** *** Allocation order *)

Lemma idle_from_complete pool (i k : nat) wk :
  pool !! k = Some wk -> is_busy wk = false -> (i + k)%nat ∈ idle_from i pool.
Proof.
  revert i k. induction pool as [|wk0 pool IH]; intros i k Hl Hb;
    [discriminate|].
  cbn [idle_from]. destruct k as [|k]; cbn in Hl.
  - injection Hl as ->. rewrite Hb, Nat.add_0_r. apply list_elem_of_here.
  - replace (i + S k)%nat with (S i + k)%nat by lia.
    destruct (is_busy wk0); [|apply list_elem_of_further]; now apply IH.
Qed.

Lemma idle_from_sorted pool (i : nat) : StronglySorted lt (idle_from i pool).
Proof.
  revert i. induction pool as [|wk pool IH]; intros i; cbn [idle_from].
  - constructor.
  - destruct (is_busy wk); [apply IH|].
    constructor; [apply IH|]. apply Forall_forall. intros a Ha.
    apply idle_from_spec in Ha. lia.
Qed.

Lemma take_sorted_closed (l : list nat) (n a j : nat) :
  StronglySorted lt l ->
  a ∈ take n l -> j ∈ l -> (j < a)%nat -> j ∈ take n l.
Proof.
  intros Hs. revert n. induction Hs as [|x l Hs IH Hx]; intros n Ha Hj Hlt.
  - now apply elem_of_nil in Hj.
  - destruct n as [|n]; [now apply elem_of_nil in Ha|]. cbn in *.
    apply elem_of_cons in Hj as [->|Hj]; [apply list_elem_of_here|].
    apply list_elem_of_further.
    apply elem_of_cons in Ha as [->|Ha]; [|now apply IH].
    rewrite Forall_forall in Hx. specialize (Hx j Hj). lia.
Qed.

(** X5: allocation is first fit.  The workers claimed for a batch are
    listed in pool order, and they are the idle workers that come first in
    the pool: an idle worker that precedes a claimed one is claimed too.
    Task [i] therefore runs on the [i]-th idle worker. *)
Theorem claim_is_first_fit (n : nat) w :
  StronglySorted lt (claimed n w)
  /\ forall a j wk,
      a ∈ claimed n w ->
      (j < a)%nat ->
      worker_pool w !! j = Some wk ->
      is_busy wk = false ->
      j ∈ claimed n w.
Proof.
  unfold claimed, idle_workers. split.
  - apply (StronglySorted_app_1_l _ _ (drop n (idle_from 0 (worker_pool w)))).
    rewrite take_drop. apply idle_from_sorted.
  - intros a j wk Ha Hlt Hl Hb.
    apply (take_sorted_closed _ _ a); [apply idle_from_sorted|exact Ha| |exact Hlt].
    now apply (idle_from_complete _ 0 j wk).
Qed.

(** *** The order of the results *)




(** *** How often the executors are called *)

Lemma count_runs_app (evs1 evs2 : list Event) :
  count_runs (evs1 ++ evs2) = (count_runs evs1 + count_runs evs2)%nat.
Proof. unfold count_runs. now rewrite List.filter_app, length_app. Qed.

Lemma count_sleeps_app (evs1 evs2 : list Event) :
  count_sleeps (evs1 ++ evs2) = (count_sleeps evs1 + count_sleeps evs2)%nat.
Proof. unfold count_sleeps. now rewrite List.filter_app, length_app. Qed.

Lemma retry_events_counts (id q : string) (k : nat) :
  count_runs (retry_events id q k) = S k
  /\ count_sleeps (retry_events id q k) = k
  /\ forall s, EvSleep s ∈ retry_events id q k -> s = 1.
Proof.
  unfold retry_events. induction k as [|k (Hr & Hs & Hone)].
  - repeat split. intros s Hin.
    apply elem_of_cons in Hin as [Hin|Hin]; [discriminate|].
    now apply elem_of_nil in Hin.
  - cbn [replicate concat app]. unfold count_runs, count_sleeps in *.
    cbn in *. split; [lia|]. split; [lia|].
    intros s Hin. apply elem_of_cons in Hin as [Hin|Hin]; [discriminate|].
    apply elem_of_cons in Hin as [[= ->]|Hin]; [reflexivity|].
    apply Hone. apply elem_of_cons in Hin as [Hin|Hin]; [discriminate|].
    now apply list_elem_of_further.
Qed.

Lemma batch_events_counts (evss : list (list Event)) :
  Forall (fun evs => exists id q k, (k <= 4)%nat /\ evs = retry_events id q k) evss ->
  (length evss <= count_runs (concat evss) <= 5 * length evss)%nat
  /\ (count_sleeps (concat evss) + length evss = count_runs (concat evss))%nat
  /\ forall s, EvSleep s ∈ concat evss -> s = 1.
Proof.
  induction 1 as [|evs evss (id & q & k & Hk & ->) _ (Hb & Hs & Hone)].
  - cbn. repeat split; try lia. intros s Hin. now apply elem_of_nil in Hin.
  - cbn [concat length]. rewrite count_runs_app, count_sleeps_app.
    destruct (retry_events_counts id q k) as (-> & -> & Hone').
    split; [lia|]. split; [lia|].
    intros s Hin. apply elem_of_app in Hin as [Hin|Hin]; auto.
Qed.

(** The events of an admitted batch that is not cancelled: those of one
    retry loop per task. *)
Lemma batch_retry_loops subtasks w w1 :
  ensure_initialized w = (Ok tt, w1) ->
  admitted subtasks w1 ->
  cancel_requested w1 = false ->
  exists batch w2 reports,
    execute_subtasks subtasks w = (Ok batch, w2)
    /\ trace w2 = (trace w1 ++ concat reports.*2)%list
    /\ task_outcomes subtasks w1 = gathered <$> reports.*1
    /\ results batch = successes_of (gathered <$> reports.*1)
    /\ failed batch = failures_of (gathered <$> reports.*1)
    /\ length reports = length subtasks
    /\ forall i rep,
        reports !! i = Some rep ->
        exists st a wk,
          subtasks !! i = Some st
          /\ claimed (length subtasks) w1 !! i = Some a
          /\ worker_pool w1 !! a = Some wk
          /\ rep = (task_outcome wk st i, task_events wk st).
Proof.
  intros Hinit Hadm Hrun.
  destruct (batch_reports _ _ Hadm) as (reports & Hout & Htr & Hrep).
  cbn zeta in Htr.
  pose proof (batch_reports_length _ _ _ Hadm Hout) as Hlen.
  rewrite (execute_subtasks_admitted _ _ _ Hinit Hadm). cbn zeta. rewrite Hrun.
  eexists _, _, reports. split; [reflexivity|]. cbn [results failed trace with_pool].
  split; [exact Htr|]. split; [exact Hout|].
  fold (task_outcomes subtasks w1). rewrite Hout.
  do 2 (split; [reflexivity|]). split; [exact Hlen|].
  intros i rep Hi.
  destruct (lookup_lt_is_Some_2 subtasks i) as [st Hst].
  { rewrite <- Hlen. now apply lookup_lt_Some in Hi. }
  destruct (Hrep i st Hst) as (a & wk & Ha & Hwk & Hi').
  rewrite Hi in Hi'. injection Hi' as ->. now exists st, a, wk.
Qed.

(** X7: a batch of [n] tasks that runs to its end calls the executors at
    least [n] and at most [5 n] times in all; it sleeps once between two
    attempts of a task, so that the sleeps are [n] fewer than the calls, and
    every sleep lasts one second. *)
Theorem executor_calls_bounded subtasks w w1 :
  ensure_initialized w = (Ok tt, w1) ->
  admitted subtasks w1 ->
  cancel_requested w1 = false ->
  exists batch w2 evs,
    execute_subtasks subtasks w = (Ok batch, w2)
    /\ trace w2 = (trace w1 ++ evs)%list
    /\ (length subtasks <= count_runs evs <= 5 * length subtasks)%nat
    /\ (count_sleeps evs + length subtasks = count_runs evs)%nat
    /\ forall s, EvSleep s ∈ evs -> s = 1.
Proof.
  intros Hinit Hadm Hrun.
  destruct (batch_retry_loops _ _ _ Hinit Hadm Hrun)
    as (batch & w2 & reports & Hexec & Htr & _ & _ & _ & Hlen & Hrep).
  exists batch, w2, (concat reports.*2). split; [exact Hexec|].
  split; [exact Htr|].
  rewrite <- Hlen, <- (length_fmap snd reports).
  apply batch_events_counts. apply Forall_fmap, Forall_lookup.
  intros i rep Hi. destruct (Hrep i rep Hi) as (st & a & wk & _ & _ & _ & ->).
  cbn. exists (agent_id wk), st, (stop_index (agent wk) st).
  split; [|reflexivity].
  destruct (stop_index_stops (agent wk) st) as [Hle _].
  unfold max_retrys in Hle. lia.
Qed.

(** X9: when the first attempt of every task succeeds, the batch returns
    one success per task and no failure, calls each executor once and never
    sleeps. *)
Theorem first_attempts_succeed subtasks w w1 :
  ensure_initialized w = (Ok tt, w1) ->
  admitted subtasks w1 ->
  cancel_requested w1 = false ->
  (forall i st a wk,
      subtasks !! i = Some st ->
      claimed (length subtasks) w1 !! i = Some a ->
      worker_pool w1 !! a = Some wk ->
      is_ok (attempt_outcome (agent wk) st 0) = true) ->
  exists batch w2 evs,
    execute_subtasks subtasks w = (Ok batch, w2)
    /\ failed batch = []
    /\ length (results batch) = length subtasks
    /\ trace w2 = (trace w1 ++ evs)%list
    /\ count_runs evs = length subtasks
    /\ count_sleeps evs = 0%nat.
Proof.
  intros Hinit Hadm Hrun Hfirst.
  destruct (batch_retry_loops _ _ _ Hinit Hadm Hrun)
    as (batch & w2 & reports & Hexec & Htr & _ & Hres & Hfailed & Hlen & Hrep).
  exists batch, w2, (concat reports.*2). split; [exact Hexec|].
  assert (Forall (fun rep => (exists d, rep.1 = Ok (VDict d))
                             /\ exists id q, rep.2 = [EvRun id q]) reports) as Hall.
  { apply Forall_lookup. intros i rep Hi.
    destruct (Hrep i rep Hi) as (st & a & wk & Hst & Ha & Hwk & ->). cbn.
    specialize (Hfirst i st a wk Hst Ha Hwk).
    unfold task_outcome, task_events, stop_index, max_retrys.
    unfold attempt_outcome in Hfirst. cbn [after_runs] in Hfirst.
    cbn [Nat.sub first_stop].
    unfold attempt_outcome.
    destruct (attempt_on (agent wk) st) as [text|exc] eqn:Hatt; [|discriminate].
    cbn [failed_attempt after_runs]. rewrite Hatt. cbn [final_outcome].
    split; [eauto|]. now exists (agent_id wk), st. }
  assert (failures_of (gathered <$> reports.*1) = []
          /\ length (successes_of (gathered <$> reports.*1)) = length reports
          /\ count_runs (concat reports.*2) = length reports
          /\ count_sleeps (concat reports.*2) = 0%nat) as (Hf & Hr & Hc & Hs).
  { clear -Hall.
    induction Hall as [|rep reports [(d & Hok) (id & q & Hev)] _ (Hf & Hr & Hc & Hs)].
    - now repeat split.
    - destruct rep as [r evs]. cbn in Hok, Hev. subst r evs.
      cbn [fmap list_fmap fst snd concat].
      rewrite successes_of_cons, failures_of_cons, gathered_record.
      split; [exact Hf|]. split; [cbn [length]; now rewrite Hr|].
      unfold count_runs, count_sleeps in *. cbn. now rewrite Hc, Hs. }
  rewrite Hres, Hfailed, <- Hlen. now repeat split.
Qed.

Lemma stop_index_after_failure (e : E) (q : string) :
  failed_attempt (attempt_on e q) = true ->
  stop_index e q = S (first_stop 3 (run e q).1 q).
Proof.
  intros Hfail. unfold stop_index, max_retrys. cbn [Nat.sub first_stop].
  now rewrite Hfail.
Qed.

(** What the extraction of the text raises is an [Exception]. *)
Lemma extract_raises_Exception (response : PyDict) (exc : PyExc) :
  _extract_output_from_dict response = Raise exc ->
  isinstance_Exception exc = true.
Proof.
  unfold _extract_output_from_dict.
  destruct (dict_has "output" response); [discriminate|].
  destruct (truthy _); [|discriminate].
  destruct (getitem_last _) as [last|e] eqn:Hlast.
  - destruct (getattr "content" last); [discriminate|].
    destruct (dict_item "content" last); discriminate.
  - intros [= <-]. unfold getitem_last in Hlast.
    destruct (dict_get_default "messages" (VList []) response) as
      [| | | |str|l| | |]; try (injection Hlast as <-; reflexivity).
    + destruct (last_char str); [discriminate|].
      injection Hlast as <-. reflexivity.
    + destruct (last l); [discriminate|].
      injection Hlast as <-. reflexivity.
Qed.

(** X10: a response out of which no text can be extracted counts as a
    failed attempt.  When the executor returns a response on which
    [_extract_output_from_dict] raises, [execute_on_agent] sleeps one second
    and calls the executor again, as it does when the executor itself
    raises. *)
Theorem unreadable_response_is_retried (self : nat) (q : string) (idx : nat)
    w wk (response : PyDict) (exc : PyExc) :
  worker_pool w !! self = Some wk ->
  (run (agent wk) q).2 = Ok response ->
  _extract_output_from_dict response = Raise exc ->
  exists evs,
    trace (execute_on_agent self q idx w).2
    = (trace w ++ EvRun (agent_id wk) q :: EvSleep 1 :: EvRun (agent_id wk) q
               :: evs)%list.
Proof.
  intros Hl Hrun Hextract. rewrite (execute_on_agent_effect _ _ _ _ _ Hl).
  unfold task_events. rewrite stop_index_after_failure
    by (unfold attempt_on; rewrite Hrun, Hextract;
        exact (extract_raises_Exception _ _ Hextract)).
  exists (concat (replicate (first_stop 3 (run (agent wk) q).1 q)
                            [EvSleep 1; EvRun (agent_id wk) q])).
  reflexivity.
Qed.

(** *** Calls of [WorkerAgentWrapper.execute] *)

(** X12: the task count of a handle counts the calls of its [execute]
    method, those that raise included: after any sequence of calls it has
    grown by the number of calls.  The handle keeps its name and its creation
    time; after a call it is idle, whatever it was before, and [last_used] is
    the time of the last call.  The executor has been called once per call,
    and no other worker has changed. *)
Theorem execute_counts_calls (self : nat) (queries : list string) w wk :
  worker_pool w !! self = Some wk ->
  exists wk',
    worker_pool (execute_each self queries w) !! self = Some wk'
    /\ task_count wk' = task_count wk + len queries
    /\ agent_id wk' = agent_id wk
    /\ created_at wk' = created_at wk
    /\ (queries <> [] ->
        is_busy wk' = false /\ last_used wk' = wall_clock w + len queries - 1)
    /\ trace (execute_each self queries w)
       = (trace w ++ (EvRun (agent_id wk) <$> queries))%list
    /\ forall j, j <> self ->
         worker_pool (execute_each self queries w) !! j = worker_pool w !! j.
Proof.
  revert w wk. induction queries as [|q queries IH]; intros w wk Hl.
  - exists wk. cbn. rewrite app_nil_r. unfold len. cbn.
    repeat split; try done. lia.
  - cbn [execute_each]. rewrite (execute_effect _ _ _ _ Hl). cbn [snd].
    set (wk1 := mkWorker _ _ _ _ _ _). set (w1 := mkWorld _ _ _ _ _ _).
    assert (worker_pool w1 !! self = Some wk1) as Hl1.
    { subst w1. cbn. apply list_lookup_insert_eq. now apply lookup_lt_Some in Hl. }
    destruct (IH w1 wk1 Hl1) as (wk' & Hl' & Hcount & Hid & Hcr & Hlast & Htr & Hother).
    exists wk'. split; [exact Hl'|]. subst wk1 w1. cbn in *.
    unfold len in *. cbn [length]. split; [lia|].
    split; [exact Hid|]. split; [exact Hcr|]. split; [|split].
    + intros _. destruct queries as [|q' queries].
      * cbn in Hl'. rewrite list_lookup_insert_eq in Hl'
          by now apply lookup_lt_Some in Hl.
        injection Hl' as <-. cbn. split; [reflexivity | lia].
      * destruct Hlast as [Hb Hu]; [discriminate|]. split; [exact Hb|].
        cbn [length] in *. lia.
    + rewrite Htr, <- app_assoc. reflexivity.
    + intros j Hj. rewrite (Hother j Hj).
      now apply list_lookup_insert_ne.
Qed.

Lemma start_all_inv (agents started : list (string * E)) :
  start_all agents = Ok started ->
  Forall2 (fun p s => s.1 = p.1 /\ start p.2 = Ok s.2) agents started.
Proof.
  revert started. induction agents as [|p agents IH]; intros started; cbn.
  - intros [= <-]. constructor.
  - destruct (start p.2) as [a|e] eqn:Ha; [|discriminate].
    destruct (start_all agents) as [l|e]; [|discriminate].
    intros [= <-]. constructor; [now split | now apply IH].
Qed.

Lemma wrap_elem_of (started : list (string * E)) (clock : Z) wk :
  wk ∈ wrap clock started ->
  exists s, s ∈ started /\ agent wk = s.2 /\ agent_id wk = s.1.
Proof.
  intros Hin. apply list_elem_of_lookup_1 in Hin as (i & Hi).
  destruct (wrap_lookup _ _ _ _ Hi) as (s & Hs & ->).
  exists s. split; [now apply list_elem_of_lookup_2 in Hs | now split].
Qed.

(** *** A batch in which every task fails *)

(** X11: a batch whose tasks all fail for good, each of their five
    attempts raising an [Exception], is not an error of the batch:
    [execute_subtasks] still returns a result, with no success and one failure
    record per task, after five calls of each executor and four sleeps per
    task. *)
Theorem every_task_fails subtasks w w1 :
  ensure_initialized w = (Ok tt, w1) ->
  admitted subtasks w1 ->
  cancel_requested w1 = false ->
  (forall i st a wk,
      subtasks !! i = Some st ->
      claimed (length subtasks) w1 !! i = Some a ->
      worker_pool w1 !! a = Some wk ->
      task_fails (agent wk) st) ->
  exists batch w2 evs,
    execute_subtasks subtasks w = (Ok batch, w2)
    /\ results batch = []
    /\ length (failed batch) = length subtasks
    /\ trace w2 = (trace w1 ++ evs)%list
    /\ count_runs evs = (5 * length subtasks)%nat
    /\ count_sleeps evs = (4 * length subtasks)%nat.
Proof.
  intros Hinit Hadm Hrun Hfail.
  destruct (batch_retry_loops _ _ _ Hinit Hadm Hrun)
    as (batch & w2 & reports & Hexec & Htr & _ & Hres & Hfailed & Hlen & Hrep).
  exists batch, w2, (concat reports.*2). split; [exact Hexec|].
  assert (Forall (fun rep => (exists msg, rep.1 = Raise (RuntimeError msg))
                             /\ exists id q, rep.2 = retry_events id q 4) reports)
    as Hall.
  { apply Forall_lookup. intros i rep Hi.
    destruct (Hrep i rep Hi) as (st & a & wk & Hst & Ha & Hwk & ->). cbn.
    specialize (Hfail i st a wk Hst Ha Hwk).
    destruct (task_outcome_exhausted wk st i Hfail) as (Hstop & exc & _ & _ & ->).
    split; [eauto|]. exists (agent_id wk), st. unfold task_events.
    now rewrite Hstop. }
  assert (successes_of (gathered <$> reports.*1) = []
          /\ length (failures_of (gathered <$> reports.*1)) = length reports
          /\ count_runs (concat reports.*2) = (5 * length reports)%nat
          /\ count_sleeps (concat reports.*2) = (4 * length reports)%nat)
    as (Hs & Hf & Hc & Hz).
  { clear -Hall.
    induction Hall as [|rep reports [(msg & Hok) (id & q & Hev)] _ (Hs & Hf & Hc & Hz)].
    - now repeat split.
    - destruct rep as [r evs]. cbn in Hok, Hev. subst r evs.
      cbn [fmap list_fmap fst snd concat].
      rewrite successes_of_cons, failures_of_cons.
      destruct (gathered_Exception (RuntimeError msg) eq_refl) as [_ ->].
      rewrite count_runs_app, count_sleeps_app, Hc, Hz.
      destruct (retry_events_counts id q 4) as (-> & -> & _).
      split; [exact Hs|]. split; [cbn [length]; now rewrite Hf|]. cbn [length].
      split; lia. }
  rewrite Hres, Hfailed, <- Hlen. now repeat split.
Qed.

(** X18: the head of a batch result.  Admission is all or nothing, so the
    result of a batch reports as many workers used as subtasks requested,
    together with the capacity against which the batch was validated, which
    is not smaller. *)
Theorem batch_result_header subtasks w w1 (batch : BatchResult) w2 :
  ensure_initialized w = (Ok tt, w1) ->
  admitted subtasks w1 ->
  execute_subtasks subtasks w = (Ok batch, w2) ->
  subtasks_count batch = len subtasks
  /\ agents_used batch = len subtasks
  /\ pool_size batch = capacity w1
  /\ 1 <= agents_used batch <= pool_size batch.
Proof.
  intros Hinit Hadm Hexec.
  rewrite (execute_subtasks_admitted _ _ _ Hinit Hadm) in Hexec.
  cbn zeta in Hexec.
  destruct (cancel_requested w1); [discriminate|].
  injection Hexec as <- _. cbn.
  destruct Hadm as (Hne & Hcap & _). unfold len in *.
  repeat split; lia.
Qed.

(** *** Exceptions that the retry loop does not handle *)

Lemma task_outcome_unhandled wk (q : string) (idx : nat) (exc : PyExc) :
  (run (agent wk) q).2 = Raise exc ->
  isinstance_Exception exc = false ->
  stop_index (agent wk) q = 0%nat /\ task_outcome wk q idx = Raise exc.
Proof.
  intros Hrun Hexc.
  assert (attempt_on (agent wk) q = Raise exc) as Hatt
    by (unfold attempt_on; now rewrite Hrun).
  assert (stop_index (agent wk) q = 0%nat) as Hstop.
  { unfold stop_index, max_retrys. cbn [Nat.sub first_stop].
    rewrite Hatt. cbn [failed_attempt]. now rewrite Hexc. }
  split; [exact Hstop|].
  unfold task_outcome, attempt_outcome. rewrite Hstop. cbn [after_runs].
  rewrite Hatt. cbn [final_outcome]. now rewrite Hexc.
Qed.

(** X19: the retry loop handles instances of [Exception] only.  When a call
    of the executor raises anything else, an [asyncio.CancelledError] for
    instance, [execute_on_agent] neither sleeps nor calls the executor
    again: after this one call it raises the very exception, which it does
    not wrap in an error report. *)
Theorem unhandled_exception_ends_task (self : nat) (q : string) (idx : nat)
    w wk (exc : PyExc) :
  worker_pool w !! self = Some wk ->
  (run (agent wk) q).2 = Raise exc ->
  isinstance_Exception exc = false ->
  execute_on_agent self q idx w
  = (Raise exc,
     task_effect self (run (agent wk) q).1 [EvRun (agent_id wk) q] w).
Proof.
  intros Hl Hrun Hexc. rewrite (execute_on_agent_effect _ _ _ _ _ Hl).
  destruct (task_outcome_unhandled wk q idx exc Hrun Hexc) as [Hstop ->].
  unfold task_events. rewrite Hstop. reflexivity.
Qed.


End PoolProofs.

(** ** The pool sizes *)

Lemma dict_get_elem_of (k : string) (d : PyDict) (v : PyVal) :
  dict_get k d = Some v -> (k, v) ∈ d.
Proof.
  induction d as [|[k' v'] d IH]; cbn; [discriminate|].
  destruct (String.eqb k k') eqn:Hk.
  - apply String.eqb_eq in Hk as ->. intros [= ->]. apply list_elem_of_here.
  - intros Hd. now apply list_elem_of_further, IH.
Qed.

(** X13: on a configuration whose pools are dicts, [get_pool_size] never
    raises: it returns the [max_pool_size] configured for the pool, and 1
    when the pool, or its size, or the whole [pools] table is missing. *)
Theorem get_pool_size_defaults_to_one (_CONFIG : PyVal) (pools : PyDict)
    (pool_name : string) :
  Pools.pools_of _CONFIG pools ->
  Pools.get_pool_size _CONFIG pool_name
  = Ok (default (VInt 1) (Pools.configured_size pools pool_name)).
Proof.
  intros [(c & -> & Hpools) Hall].
  unfold Pools.get_pool_size, Pools.configured_size. cbn [Pools.py_get].
  rewrite Hpools. cbn [Pools.py_get]. unfold dict_get_default.
  destruct (dict_get pool_name pools) as [v|] eqn:Hv; [|reflexivity].
  apply dict_get_elem_of in Hv. rewrite Forall_forall in Hall.
  destruct (Hall _ Hv) as (pool & Hpool). cbn in Hpool. subst v.
  cbn. unfold dict_get_default. now destruct (dict_get "max_pool_size" pool).
Qed.

(** ** [SearchExecutor] *)

Section ExecutorProofs.
Context `{SearchExecutor.Backend} `{Builtins}.

Lemma filter_useful_sublist (tools : list SearchExecutor.Tool) :
  List.filter SearchExecutor.is_useful tools `sublist_of` tools.
Proof.
  induction tools as [|tool tools IH]; cbn [List.filter]; [constructor|].
  destruct (SearchExecutor.is_useful tool);
    [apply sublist_skip | apply sublist_cons]; exact IH.
Qed.

Lemma is_useful_spec (tool : SearchExecutor.Tool) :
  SearchExecutor.is_useful tool = true
  <-> SearchExecutor.tool_name tool ∈ SearchExecutor.useful_tool_names.
Proof.
  unfold SearchExecutor.is_useful. rewrite existsb_exists, list_elem_of_In.
  split.
  - intros (x & Hx & Heq). apply String.eqb_eq in Heq. now subst.
  - intros Hin. exists (SearchExecutor.tool_name tool).
    split; [exact Hin | apply String.eqb_refl].
Qed.

(** X14: [start] hands the agent graph the useful tools only.  When the
    MCP client lists its tools, the graph is built from the model, the system
    message and those listed tools whose name is one of the four Firecrawl
    tools, in the order in which they were listed, and the executor is
    otherwise unchanged; when listing the tools raises, [start] raises the
    same exception and builds no graph. *)
Theorem start_keeps_useful_tools (self : SearchExecutor.t) :
  let client := SearchExecutor.MultiServerMCPClient (SearchExecutor.mcp_servers self) in
  match SearchExecutor.get_tools client with
  | Ok tools =>
      exists kept,
        SearchExecutor.start self
        = (SearchExecutor.set_graph
             (Some (SearchExecutor.create_agent (SearchExecutor.model self) kept
                      (SearchExecutor._system_message self)))
             (SearchExecutor.set_client (Some client) self),
           Ok tt)
        /\ kept `sublist_of` tools
        /\ forall tool,
            tool ∈ kept
            <-> tool ∈ tools
                /\ SearchExecutor.tool_name tool ∈ SearchExecutor.useful_tool_names
  | Raise e =>
      SearchExecutor.start self
      = (SearchExecutor.set_client (Some client) self, Raise e)
  end.
Proof.
  cbn zeta. unfold SearchExecutor.start.
  destruct (SearchExecutor.get_tools _) as [tools|e]; [|reflexivity].
  exists (List.filter SearchExecutor.is_useful tools).
  split; [reflexivity|]. split; [apply filter_useful_sublist|].
  intros tool. rewrite !list_elem_of_In, List.filter_In, is_useful_spec.
  now rewrite list_elem_of_In.
Qed.

Lemma env_get_set (k k' v : string) (d : list (string * string)) :
  SearchExecutor.env_get k (SearchExecutor.env_set k' v d)
  = if String.eqb k k' then Some v else SearchExecutor.env_get k d.
Proof.
  induction d as [|[k0 v0] d IH]; cbn.
  - now destruct (String.eqb k k').
  - destruct (String.eqb k' k0) eqn:Hk0; cbn.
    + apply String.eqb_eq in Hk0 as ->. now destruct (String.eqb k k0).
    + rewrite IH. destruct (String.eqb k k') eqn:Hk; [|reflexivity].
      apply String.eqb_eq in Hk as ->. now rewrite Hk0.
Qed.

Lemma env_get_keys (k v : string) (e : list (string * string)) :
  SearchExecutor.env_get k e = Some v -> k ∈ e.*1.
Proof.
  induction e as [|[k0 v0] e IH]; cbn; [discriminate|].
  destruct (String.eqb k k0) eqn:Hk.
  - apply String.eqb_eq in Hk as ->. intros _. apply list_elem_of_here.
  - intros He. now apply list_elem_of_further, IH.
Qed.

Lemma env_get_update (k : string) (e d : list (string * string)) :
  NoDup e.*1 ->
  SearchExecutor.env_get k (SearchExecutor.env_update d e)
  = match SearchExecutor.env_get k e with
    | Some v => Some v
    | None => SearchExecutor.env_get k d
    end.
Proof.
  unfold SearchExecutor.env_update. revert d.
  induction e as [|[k0 v0] e IH]; intros d Hnd; [reflexivity|].
  cbn in Hnd. apply NoDup_cons in Hnd as [Hk0 Hnd].
  cbn [foldl fst snd SearchExecutor.env_get]. rewrite (IH _ Hnd), env_get_set.
  destruct (String.eqb k k0) eqn:Hk; [|reflexivity].
  apply String.eqb_eq in Hk as ->.
  destruct (SearchExecutor.env_get k0 e) as [v|] eqn:He; [|reflexivity].
  now apply env_get_keys in He.
Qed.

(** X15: the environment of an executor is the default environment
    overlaid with the one given to the constructor: a variable has the value
    given by the caller if the caller gives one, and its default value
    otherwise; with no environment, or an empty one, the defaults stand. *)
Theorem constructor_overlays_env (name : string)
    (model : SearchExecutor.ChatModel) (description command : option string)
    (args : option (list string)) (env : option (list (string * string)))
    (system_message : option string) (k : string) :
  NoDup (default [] env).*1 ->
  SearchExecutor.env_get k
    (SearchExecutor._env
       (SearchExecutor.new name model description command args env system_message))
  = match SearchExecutor.env_get k (default [] env) with
    | Some v => Some v
    | None => SearchExecutor.env_get k SearchExecutor.DEFAULT_ENV
    end.
Proof.
  intros Hnd. unfold SearchExecutor.new. cbn [SearchExecutor._env].
  destruct env as [[|kv e]|]; [reflexivity| |reflexivity].
  now apply env_get_update.
Qed.

(** *** A pool of search executors *)

#[local] Existing Instance SearchExecutor.pool_executor.

Lemma started_runs_graph (self self' : SearchExecutor.t) :
  start self = Ok self' ->
  SearchExecutor.name self' = SearchExecutor.name self
  /\ exists graph,
      SearchExecutor._agent_graph self' = Some graph
      /\ forall q,
          run self' q
          = (SearchExecutor.set_graph
               (Some (SearchExecutor.ainvoke graph
                        [("messages", VList [SearchExecutor.user_message q])]
                        [("recursion_limit", VInt 50)]).1)
               self',
             (SearchExecutor.ainvoke graph
                [("messages", VList [SearchExecutor.user_message q])]
                [("recursion_limit", VInt 50)]).2).
Proof.
  cbn [start SearchExecutor.pool_executor]. unfold SearchExecutor.start.
  destruct (SearchExecutor.get_tools _) as [tools|e]; [|discriminate].
  intros [= <-]. split; [reflexivity|]. eexists. split; [reflexivity|].
  intros q. cbn [run SearchExecutor.pool_executor]. unfold SearchExecutor.run.
  cbn [SearchExecutor._agent_graph SearchExecutor.set_graph].
  now destruct (SearchExecutor.ainvoke _ _ _).
Qed.

(** X16: in a pool that the first initialization has just built, every
    worker holds a started executor that bears the worker's name, and an
    attempt of a task on it is one invocation of its agent graph, with the
    text of the task as the only message, from the user, and a recursion
    limit of 50; what the graph returns or raises is the outcome of the
    call. *)
Theorem fresh_pool_workers_are_started
    (config : option (PoolConfig AgentKwargs)) (model : option Model)
    (w w' : World SearchExecutor.t) :
  _pool_initialized w = false ->
  initialize_pool config model w = (Ok tt, w') ->
  exists new,
    worker_pool w' = (worker_pool w ++ new)%list
    /\ forall wk,
        wk ∈ new ->
        SearchExecutor.name (agent wk) = agent_id wk
        /\ exists graph,
            SearchExecutor._agent_graph (agent wk) = Some graph
            /\ forall q,
                run (agent wk) q
                = (SearchExecutor.set_graph
                     (Some (SearchExecutor.ainvoke graph
                              [("messages", VList [SearchExecutor.user_message q])]
                              [("recursion_limit", VInt 50)]).1)
                     (agent wk),
                   (SearchExecutor.ainvoke graph
                      [("messages", VList [SearchExecutor.user_message q])]
                      [("recursion_limit", VInt 50)]).2).
Proof.
  intros Hi. rewrite (initialize_pool_fresh _ _ _ Hi). cbn zeta.
  destruct (start_all _) as [started|e] eqn:Hs; [|discriminate].
  intros [= <-]. exists (wrap (wall_clock w) started).
  split; [reflexivity|]. intros wk Hwk.
  destruct (wrap_elem_of _ _ _ Hwk) as (s & Hin & -> & ->).
  apply start_all_inv in Hs.
  apply list_elem_of_lookup_1 in Hin as (i & Hsi).
  destruct (Forall2_lookup_r _ _ _ _ _ Hs Hsi) as (p & Hp & Hname & Hstart).
  apply new_agents_lookup in Hp. subst p. cbn [fst snd] in *.
  destruct (started_runs_graph _ _ Hstart) as (Hn & graph & Hg & Hrun).
  split; [|now exists graph].
  rewrite Hn, Hname. reflexivity.
Qed.

Lemma unstarted_after_runs (self : SearchExecutor.t) (q : string) (k : nat) :
  SearchExecutor._agent_graph self = None ->
  after_runs k self q = self.
Proof.
  intros Hg. induction k as [|k IH]; [reflexivity|]. cbn [after_runs].
  replace (run self q).1 with self; [exact IH|].
  cbn [run SearchExecutor.pool_executor]. unfold SearchExecutor.run.
  now rewrite Hg.
Qed.

Lemma unstarted_attempt (self : SearchExecutor.t) (q : string) (k : nat) :
  SearchExecutor._agent_graph self = None ->
  attempt_outcome self q k = Raise SearchExecutor.not_started.
Proof.
  intros Hg. unfold attempt_outcome, attempt_on.
  rewrite (unstarted_after_runs _ _ _ Hg).
  cbn [run SearchExecutor.pool_executor]. unfold SearchExecutor.run.
  now rewrite Hg.
Qed.

(** X17: [cleanup] closes the executor of a handle and leaves the handle in
    the pool, as busy or idle as it was.  A task that is then run on this
    worker makes its five attempts, sleeping one second between them, has
    each refused with "Agent not started", and fails for good with an error
    text that reports this exception. *)
Theorem cleaned_up_worker_fails_tasks (self : nat) (q : string) (idx : nat)
    (w : World SearchExecutor.t) (wk : WorkerAgentWrapper SearchExecutor.t) :
  worker_pool w !! self = Some wk ->
  let w' := (SearchExecutor.cleanup self w).2 in
  worker_pool w' !! self = Some (set_agent (SearchExecutor.close (agent wk)) wk)
  /\ length (worker_pool w') = length (worker_pool w)
  /\ (execute_on_agent self q idx w').1
     = Raise (RuntimeError
                (error_message (agent_id wk) (elapsed_time idx 4) idx q
                               SearchExecutor.not_started))
  /\ trace (execute_on_agent self q idx w').2
     = (trace w ++ retry_events (agent_id wk) q 4)%list.
Proof.
  intros Hl. cbn zeta. unfold SearchExecutor.cleanup, on_worker, modify.
  cbn [snd with_pool worker_pool].
  assert (alter (fun wk0 => set_agent (SearchExecutor.close (agent wk0)) wk0)
                self (worker_pool w) !! self
          = Some (set_agent (SearchExecutor.close (agent wk)) wk)) as Hl'
    by now rewrite list_lookup_alter_eq, Hl.
  split; [exact Hl'|]. split; [apply length_alter|].
  set (w' := with_pool _ w).
  assert (worker_pool w' !! self
          = Some (set_agent (SearchExecutor.close (agent wk)) wk)) as Hw' by exact Hl'.
  rewrite (execute_on_agent_effect _ _ _ _ _ Hw'). cbn [fst snd].
  set (wk' := set_agent _ wk).
  assert (SearchExecutor._agent_graph (agent wk') = None) as Hg by reflexivity.
  assert (stops_at (agent wk') q 4) as Hstop.
  { split; [|now right]. intros j _. now rewrite unstarted_attempt. }
  apply stops_at_stop_index in Hstop; [|unfold max_retrys; lia].
  unfold task_outcome, task_events. rewrite <- Hstop.
  rewrite (unstarted_attempt _ _ _ Hg). split; reflexivity.
Qed.

End ExecutorProofs.

(** ** The properties on sample runs *)

Import Scripted Samples.

Ltac by_evaluation :=
  repeat split; vm_compute; first [lia | discriminate].

Lemma initialize_pool_idempotent_witness :
  initialize_pool capacity_four None initialized_with_two
  = (Ok tt, initialized_with_two)
  /\ length (worker_pool initialized_with_two) = 2%nat.
Proof.
  split; [|reflexivity].
  apply (initialize_pool_idempotent capacity_four None initialized_with_two).
  reflexivity.
Defined.

Lemma invalid_batch_rejected_witness :
  execute_subtasks [] three_workers = (Raise no_subtask, three_workers)
  /\ execute_subtasks ["a"; "b"; "c"; "d"] three_workers
     = (Raise (too_many 4 3), three_workers).
Proof.
  split.
  - apply (invalid_batch_rejected [] three_workers three_workers eq_refl).
    left. reflexivity.
  - apply (invalid_batch_rejected ["a"; "b"; "c"; "d"] three_workers three_workers
             eq_refl).
    right. vm_compute. reflexivity.
Defined.

Lemma insufficient_idle_rejected_witness :
  execute_subtasks ["a"; "b"] two_in_flight
  = (Raise (not_enough 2 1), two_in_flight).
Proof.
  apply (insufficient_idle_rejected ["a"; "b"] two_in_flight two_in_flight eq_refl).
  - cbn. lia.
  - vm_compute. discriminate.
  - cbn. lia.
Defined.

Lemma retry_loop_witness :
  (execute_on_agent 0 "q" 7 flaky).1
  = Ok (VDict (success_record 7 "q" (VStr "late") "search_agent_0" 0)).
Proof.
  refine (proj2 (retry_loop_bounded_constant_backoff 0 "q" 7 flaky flaky_worker
                   eq_refl) (VStr "late") _ _).
  - intros j Hj. do 4 (destruct j as [|j]; [reflexivity|]). lia.
  - reflexivity.
Defined.


Lemma claimed_workers_released_witness :
  (execute_subtasks abc three_workers_cancelled).1 = Raise CancelledError
  /\ busy_flags (execute_subtasks abc three_workers_cancelled).2
     = [false; false; false].
Proof.
  split; [reflexivity|].
  apply (claimed_workers_released abc three_workers_cancelled
           three_workers_cancelled eq_refl
           ltac:(by_evaluation)
           (execute_subtasks abc three_workers_cancelled).1
           (execute_subtasks abc three_workers_cancelled).2
           (surjective_pairing _)).
Defined.

Lemma task_failures_contained_witness :
  exists batch w2,
    execute_subtasks abc three_workers = (Ok batch, w2)
    /\ length (results batch) = 2%nat
    /\ length (failed batch) = 1%nat.
Proof.
  destruct (task_failures_contained abc three_workers three_workers eq_refl
              ltac:(by_evaluation) eq_refl)
    as (batch & w2 & Hexec & Hres & Hfailed & _).
  exists batch, w2. split; [exact Hexec|].
  rewrite Hres, Hfailed. split; reflexivity.
Defined.

Lemma index_fidelity_witness :
  exists batch w2 rec0 rec2 msg,
    execute_subtasks abc three_workers = (Ok batch, w2)
    /\ results batch = [VDict rec0; VDict rec2]
    /\ dict_get "subtask_index" rec0 = Some (VInt 0)
    /\ dict_get "subtask_index" rec2 = Some (VInt 2)
    /\ failed batch = [[("error", VStr msg)]].
Proof.
  assert (task_succeeds [answer "A"] "a") as Hfirst.
  { exists 0%nat. split; [unfold max_retrys; lia|].
    split; [intros i Hi; lia | reflexivity]. }
  assert (task_fails (replicate 5 (failure "x")) "b") as Hsecond.
  { intros j Hj. unfold max_retrys in Hj.
    do 5 (destruct j as [|j]; [reflexivity|]). lia. }
  assert (task_succeeds [failure "y"; answer "C"] "c") as Hthird.
  { exists 1%nat. split; [unfold max_retrys; lia|]. split; [|reflexivity].
    intros i Hi. destruct i as [|i]; [reflexivity | lia]. }
  destruct (index_fidelity "a" "b" "c" three_workers three_workers 0 1 2
              (worker 0 [answer "A"] false)
              (worker 1 (replicate 5 (failure "x")) false)
              (worker 2 [failure "y"; answer "C"] false)
              eq_refl ltac:(by_evaluation) eq_refl eq_refl
              eq_refl eq_refl eq_refl Hfirst Hsecond Hthird)
    as (batch & w2 & rec0 & rec2 & exc
        & Hexec & Hres & Hi0 & _ & Hi2 & _ & Hfailed & _ & _).
  exists batch, w2, rec0, rec2. eexists.
  split; [exact Hexec|]. split; [exact Hres|]. split; [exact Hi0|].
  split; [exact Hi2 | exact Hfailed].
Defined.

Lemma executor_called_on_claimed_handle_witness :
  exists i a wk,
    abc !! i = Some "b"
    /\ claimed 3 three_workers !! i = Some a
    /\ worker_pool three_workers !! a = Some wk
    /\ "search_agent_1" = agent_id wk.
Proof.
  destruct (proj1 (executor_called_on_claimed_handle abc three_workers
                     three_workers eq_refl ltac:(by_evaluation))
              (execute_subtasks abc three_workers).1
              (execute_subtasks abc three_workers).2
              (surjective_pairing _))
    as (evs & Htr & Hruns).
  apply (Hruns "search_agent_1" "b").
  change (trace three_workers ++ evs)%list with evs in Htr. rewrite <- Htr.
  vm_compute. apply list_elem_of_further, list_elem_of_here.
Defined.

(** C7, as stated, fails: the failures of the sample batch hold no record
    with index 1, although its second task is the one that failed. *)
Lemma failure_record_without_index :
  exists batch w2,
    execute_subtasks abc three_workers = (Ok batch, w2)
    /\ length (failed batch) = 1%nat
    /\ ~ (exists record, record ∈ failed batch
            /\ dict_get "subtask_index" record = Some (VInt 1)).
Proof.
  eexists _, _. split; [vm_compute; reflexivity|]. split; [reflexivity|].
  intros (record & Hin & Hidx). cbn [failed] in Hin.
  apply list_elem_of_singleton in Hin. subst record. discriminate Hidx.
Qed.

(** C8, as stated, fails: in the sample batch the second worker runs five
    attempts, and its [task_count] after the batch is what it was before. *)
Lemma task_count_not_incremented :
  exists batch w2 wk wk',
    execute_subtasks abc three_workers = (Ok batch, w2)
    /\ EvRun "search_agent_1" "b" ∈ trace w2
    /\ worker_pool three_workers !! 1%nat = Some wk
    /\ worker_pool w2 !! 1%nat = Some wk'
    /\ ~ (task_count wk < task_count wk').
Proof.
  eexists _, _, _, _. split; [vm_compute; reflexivity|].
  split; [apply list_elem_of_further, list_elem_of_here|].
  split; [reflexivity|]. split; [reflexivity|]. cbn. lia.
Qed.

(** ** The further properties on sample runs *)

Import MoreSamples.

Lemma initialize_pool_creates_workers_witness :
  exists w' new,
    initialize_pool capacity_two None Samples.fresh = (Ok tt, w')
    /\ worker_pool w' = new
    /\ length new = 2%nat
    /\ agent_id <$> new = ["search_agent_0"; "search_agent_1"].
Proof.
  destruct (initialize_pool_creates_workers capacity_two None Samples.fresh eq_refl)
    as (w' & new & Hinit & _ & _ & Hpool & Hlen & Hnew).
  { intros p _. reflexivity. }
  exists w', new. split; [exact Hinit|]. split; [exact Hpool|].
  split; [exact Hlen|].
  destruct new as [|wk0 [|wk1 [|]]]; try discriminate.
  destruct (Hnew 0%nat wk0 eq_refl) as (Hid0 & _).
  destruct (Hnew 1%nat wk1 eq_refl) as (Hid1 & _).
  cbn [fmap list_fmap]. rewrite Hid0, Hid1. reflexivity.
Defined.

Lemma no_capacity_rejects_every_batch_witness :
  exists msg,
    execute_subtasks ["a"] no_workers = (Raise (ValueError msg), no_workers).
Proof.
  apply (no_capacity_rejects_every_batch ["a"] no_workers).
  - reflexivity.
  - vm_compute. discriminate.
Defined.

Lemma unclaimed_workers_untouched_witness :
  worker_pool (execute_subtasks ["a"] two_in_flight).2 !! 0%nat
  = Some (worker 0 [] true).
Proof.
  destruct (unclaimed_workers_untouched ["a"] two_in_flight two_in_flight
              (execute_subtasks ["a"] two_in_flight).1
              (execute_subtasks ["a"] two_in_flight).2)
    as (Hother & _).
  { split; [reflexivity|]. split; [by_evaluation | apply surjective_pairing]. }
  rewrite Hother; [reflexivity|].
  vm_compute. intros Hin. apply list_elem_of_singleton in Hin. discriminate.
Defined.

Lemma batches_compose_witness :
  admitted abc (execute_subtasks abc three_workers).2.
Proof.
  destruct (batches_compose abc three_workers three_workers
              (execute_subtasks abc three_workers).1
              (execute_subtasks abc three_workers).2)
    as (_ & _ & _ & Hadm).
  { split; [reflexivity|]. split; [by_evaluation | apply surjective_pairing]. }
  apply Hadm. by_evaluation.
Defined.


Lemma executor_calls_bounded_witness :
  exists batch w2 evs,
    execute_subtasks abc three_workers = (Ok batch, w2)
    /\ trace w2 = evs
    /\ (3 <= count_runs evs <= 15)%nat.
Proof.
  destruct (executor_calls_bounded abc three_workers three_workers eq_refl
              ltac:(by_evaluation) eq_refl)
    as (batch & w2 & evs & Hexec & Htr & Hb & _).
  exists batch, w2, evs. split; [exact Hexec|]. split; [exact Htr | exact Hb].
Defined.

Lemma first_attempts_succeed_witness :
  exists batch w2,
    execute_subtasks ["a"; "b"] two_ready = (Ok batch, w2)
    /\ failed batch = []
    /\ length (results batch) = 2%nat.
Proof.
  destruct (first_attempts_succeed ["a"; "b"] two_ready two_ready eq_refl
              ltac:(by_evaluation) eq_refl)
    as (batch & w2 & evs & Hexec & Hf & Hr & _).
  { intros i st a wk Hst Ha Hwk.
    destruct i as [|[|i]]; [| |discriminate];
      vm_compute in Ha; injection Ha as <-;
      vm_compute in Hwk; injection Hwk as <-;
      cbn in Hst; injection Hst as <-; reflexivity. }
  exists batch, w2. split; [exact Hexec|]. split; [exact Hf | exact Hr].
Defined.

Lemma unreadable_response_is_retried_witness :
  exists evs,
    trace (execute_on_agent 0 "q" 0 garbling).2
    = EvRun "search_agent_0" "q" :: EvSleep 1 :: EvRun "search_agent_0" "q" :: evs.
Proof.
  apply (unreadable_response_is_retried 0 "q" 0 garbling garbling_worker garbled
           (TypeError "object is not subscriptable"));
    reflexivity.
Defined.

Lemma execute_counts_calls_witness :
  exists wk',
    worker_pool (execute_each 0 ["a"; "b"; "c"] flaky) !! 0%nat = Some wk'
    /\ task_count wk' = 3.
Proof.
  destruct (execute_counts_calls 0 ["a"; "b"; "c"] flaky flaky_worker eq_refl)
    as (wk' & Hl & Hcount & _).
  exists wk'. split; [exact Hl | exact Hcount].
Defined.

Lemma get_pool_size_defaults_to_one_witness :
  Pools.get_pool_size (Pools.load_pool_config None) "search" = Ok (VInt 5)
  /\ Pools.get_pool_size (Pools.load_pool_config None) "media" = Ok (VInt 1)
  /\ Pools.get_pool_size (Pools.load_pool_config None) "video" = Ok (VInt 1).
Proof.
  assert (Pools.pools_of (Pools.load_pool_config None)
            [ ("search", VDict [("max_pool_size", VInt 5)]);
              ("browser", VDict [("max_pool_size", VInt 5)]);
              ("code", VDict [("max_pool_size", VInt 2)]);
              ("filesystem", VDict [("max_pool_size", VInt 2)]);
              ("media", VDict [("max_pool_size", VInt 1)]) ]) as Hpools.
  { split; [eexists; split; reflexivity|].
    repeat (constructor; [eexists; reflexivity|]). constructor. }
  split; [|split]; exact (get_pool_size_defaults_to_one _ _ _ Hpools).
Defined.

Lemma unhandled_exception_ends_task_witness :
  (execute_on_agent 0 "a" 0 one_cancelled).1 = Raise CancelledError
  /\ trace (execute_on_agent 0 "a" 0 one_cancelled).2 = [EvRun "search_agent_0" "a"].
Proof.
  rewrite (unhandled_exception_ends_task 0 "a" 0 one_cancelled cancelled_worker
             CancelledError eq_refl eq_refl eq_refl).
  split; reflexivity.
Defined.


#[local] Existing Instance SampleBackend.backend.
#[local] Existing Instance SampleBackend.pool.

Lemma initialize_pool_start_failure_witness :
  exists e w',
    initialize_pool SampleBackend.two_offline None SampleBackend.fresh
    = (Raise e, w')
    /\ _pool_initialized w' = false
    /\ worker_pool w' = [].
Proof.
  edestruct (initialize_pool_start_failure SampleBackend.two_offline None
               SampleBackend.fresh)
    as (q & e & w' & _ & _ & Hinit & Hflag & Hpool & _).
  - reflexivity.
  - vm_compute. apply list_elem_of_here.
  - reflexivity.
  - exists e, w'. split; [exact Hinit|]. split; [exact Hflag | exact Hpool].
Defined.

Lemma constructor_overlays_env_witness :
  SearchExecutor.env_get "FIRECRAWL_API_KEY"
    (SearchExecutor._env
       (SearchExecutor.new "search_agent_0" tt None None None
          (Some [("FIRECRAWL_API_KEY", "fc-mine"); ("HTTPS_PROXY", "proxy:3128")])
          None))
  = Some "fc-mine".
Proof.
  rewrite constructor_overlays_env; [reflexivity|].
  cbn. apply NoDup_cons. split; [|apply NoDup_singleton].
  intros Hin. apply list_elem_of_singleton in Hin. discriminate.
Defined.

Lemma fresh_pool_workers_are_started_witness :
  exists new,
    worker_pool
      (initialize_pool SampleBackend.two_executors None SampleBackend.fresh).2
    = new
    /\ length new = 2%nat
    /\ forall wk, wk ∈ new ->
         SearchExecutor.name (agent wk) = agent_id wk.
Proof.
  destruct (fresh_pool_workers_are_started SampleBackend.two_executors None
              SampleBackend.fresh
              (initialize_pool SampleBackend.two_executors None
                 SampleBackend.fresh).2 eq_refl eq_refl)
    as (new & Hpool & Hnew).
  change (worker_pool SampleBackend.fresh ++ new)%list with new in Hpool.
  exists new. split; [exact Hpool|]. split.
  - rewrite <- Hpool. reflexivity.
  - intros wk Hwk. now destruct (Hnew wk Hwk).
Defined.

Lemma cleaned_up_worker_fails_tasks_witness :
  is_ok (execute_on_agent 0 "q" 0
           (SearchExecutor.cleanup 0 SampleBackend.one_executor).2).1 = false
  /\ count_runs (trace (execute_on_agent 0 "q" 0
                          (SearchExecutor.cleanup 0 SampleBackend.one_executor).2).2)
     = 5%nat.
Proof.
  destruct (cleaned_up_worker_fails_tasks 0 "q" 0 SampleBackend.one_executor
              (mkWorker SampleBackend.started "search_agent_0" 0 1 false 0)
              eq_refl)
    as (_ & _ & Hout & Htr).
  rewrite Hout, Htr. split; reflexivity.
Defined.

Lemma every_task_fails_witness :
  exists batch w2,
    execute_subtasks ["a"] MoreSamples.always_failing = (Ok batch, w2)
    /\ results batch = []
    /\ length (failed batch) = 1%nat.
Proof.
  destruct (every_task_fails ["a"] MoreSamples.always_failing
              MoreSamples.always_failing eq_refl ltac:(by_evaluation) eq_refl)
    as (batch & w2 & evs & Hexec & Hr & Hf & _).
  { intros i st a wk Hst Ha Hwk j Hj. unfold max_retrys in Hj.
    destruct i as [|i]; [|discriminate].
    vm_compute in Ha; injection Ha as <-.
    vm_compute in Hwk; injection Hwk as <-.
    cbn in Hst; injection Hst as <-.
    do 5 (destruct j as [|j]; [reflexivity|]). lia. }
  exists batch, w2. split; [exact Hexec|]. split; [exact Hr | exact Hf].
Defined.

Lemma batch_result_header_witness :
  exists batch w2,
    execute_subtasks abc three_workers = (Ok batch, w2)
    /\ agents_used batch = 3
    /\ pool_size batch = 3.
Proof.
  destruct (execute_subtasks abc three_workers) as [[batch|e] w2] eqn:Hexec;
    [|vm_compute in Hexec; discriminate].
  exists batch, w2. split; [reflexivity|].
  destruct (batch_result_header abc three_workers three_workers batch w2
              eq_refl ltac:(by_evaluation) Hexec)
    as (_ & Hused & Hsize & _).
  split; [exact Hused | exact Hsize].
Defined.
